(** * Cookie collector service (api/cookies.js): model and properties

    The development follows the JavaScript source closely.  JavaScript
    values received in request bodies are kept untyped ([JsVal]); code that
    awaits browser operations is written in a small writer/exception monad
    ([Task]) whose log records the page operations in the order the source
    issues them; the service object, the heap cell that [this.cookies]
    points to, the interval timers and the suspended continuations of the
    event loop make up the [World]. *)

From Stdlib Require Import ZArith QArith String List Bool Lia.
From stdpp Require Import base option gmap.

Set Warnings "-register-all".
Close Scope Q_scope.
Open Scope string_scope.
Open Scope list_scope.

(* ===================================================================== *)
(** ** JavaScript values *)
(* ===================================================================== *)

Module JS.

(** Values as they come out of [JSON.parse], plus [undefined] for absent
    properties.  Numbers are the rationals of the JSON grammar. *)
Inductive JsVal : Type :=
| JUndefined
| JNull
| JBool (b : bool)
| JNum (q : Q)
| JStr (s : string)
| JArr (items : list JsVal)
| JObj (props : list (string * JsVal)).

(** Outcome of evaluating something that may throw. *)
Inductive Completion (A : Type) : Type :=
| Normal (a : A)
| Throw (message : string).
Arguments Normal {A} a.
Arguments Throw {A} message.

(** ToBoolean. *)
Definition truthy (v : JsVal) : bool :=
  match v with
  | JUndefined | JNull => false
  | JBool b => b
  | JNum q => negb (Qeq_bool q 0)
  | JStr s => negb (String.eqb s "")
  | JArr _ | JObj _ => true
  end.

(** The [typeof] operator. *)
Definition typeof (v : JsVal) : string :=
  match v with
  | JUndefined => "undefined"
  | JNull => "object"
  | JBool _ => "boolean"
  | JNum _ => "number"
  | JStr _ => "string"
  | JArr _ | JObj _ => "object"
  end.

(** [a || b] *)
Definition or_else (a b : JsVal) : JsVal := if truthy a then a else b.

Fixpoint assoc (k : string) (props : list (string * JsVal)) : JsVal :=
  match props with
  | [] => JUndefined
  | (k', v) :: rest => if String.eqb k k' then v else assoc k rest
  end.

(** Property read [o.k]: throws on [null] and [undefined], is [undefined]
    for the keys used here on every other primitive and on arrays. *)
Definition get (o : JsVal) (k : string) : Completion JsVal :=
  match o with
  | JUndefined | JNull => Throw "TypeError: Cannot read properties"
  | JObj props => Normal (assoc k props)
  | _ => Normal JUndefined
  end.

(** Property write [o.k = v] on an object. *)
Fixpoint set_assoc (k : string) (v : JsVal) (props : list (string * JsVal))
  : list (string * JsVal) :=
  match props with
  | [] => [(k, v)]
  | (k', v') :: rest =>
      if String.eqb k k' then (k, v) :: rest else (k', v') :: set_assoc k v rest
  end.

Definition set (o : JsVal) (k : string) (v : JsVal) : JsVal :=
  match o with
  | JObj props => JObj (set_assoc k v props)
  | _ => o
  end.

(** [a > b], [a >= b], [a <= b] on two numbers. *)
Definition num_le (a b : Q) : bool := Qle_bool a b.
Definition num_lt (a b : Q) : bool := negb (Qle_bool b a).

(** Strict equality with a string literal: [v === "lit"]. *)
Definition is_string (v : JsVal) (lit : string) : bool :=
  match v with
  | JStr s => String.eqb s lit
  | _ => false
  end.

(** [Array.prototype.includes] on an array of string literals. *)
Definition includes_lit (lits : list string) (v : JsVal) : bool :=
  existsb (is_string v) lits.

(** [String.prototype.includes]. *)
Fixpoint includes (hay needle : string) : bool :=
  String.prefix needle hay
  || match hay with
     | EmptyString => false
     | String _ rest => includes rest needle
     end.

(** [Array.prototype.join]. *)
Definition join (sep : string) (parts : list string) : string :=
  String.concat sep parts.

End JS.
Import JS.

(* ===================================================================== *)
(** ** Asynchronous browser work: the [Task] monad *)
(* ===================================================================== *)

Module Page.

(** [new Date().toISOString()]: a non-empty string, kept as the instant it
    denotes (milliseconds). *)
Definition Timestamp : Type := Z.

Record Cookie : Type := { name : string; value : string }.

(** What one puppeteer page does when driven: every awaited call either
    resolves or rejects.  Calls that take arguments may depend on them. *)
Record Page : Type := {
  on_setUserAgent : string -> Completion unit;
  on_setExtraHTTPHeaders : JsVal -> Completion unit;
  on_setViewport : JsVal -> Completion unit;
  on_goto : JsVal -> JsVal -> JsVal -> Completion unit;
  on_title : Completion string;
  on_evaluate : JsVal -> Completion unit;
  on_cookies : Completion (list Cookie);
  on_close : Completion unit
}.

(** Calls made on the browser and on a page, in program order. *)
Inductive PageEvent : Type :=
| NewPage
| SetUserAgent (ua : string)
| SetExtraHTTPHeaders (headers : JsVal)
| SetViewport (viewport : JsVal)
| Goto (url waitUntil timeout : JsVal)
| Sleep (ms : JsVal)
| Title
| Evaluate (script : JsVal)
| Cookies
| Close.

(** A computation that logs the calls it makes and ends normally or by
    throwing. *)
Definition Task (A : Type) : Type := list PageEvent * Completion A.

Definition ret {A} (a : A) : Task A := ([], Normal a).

Definition bind {A B} (m : Task A) (k : A -> Task B) : Task B :=
  match m with
  | (log, Normal a) => let (log', c) := k a in (log ++ log', c)
  | (log, Throw e) => (log, Throw e)
  end.

Definition call {A} (ev : PageEvent) (outcome : Completion A) : Task A :=
  ([ev], outcome).

Definition lift {A} (c : Completion A) : Task A := ([], c).

Notation "'let!' x ':=' m 'in' k" := (bind m (fun x => k))
  (at level 10, x name, m at level 100, k at level 200).
Notation "'await' m 'in' k" := (bind m (fun _ => k))
  (at level 10, m at level 100, k at level 200).

(** [try { body } catch (error) { handler } finally { fin }]: the handler
    runs on a throw of the body; [fin] always runs; a throw of [fin]
    replaces the completion reached so far. *)
Definition try_catch_finally {A} (body : Task A) (handler : string -> Task A)
  (fin : Task unit) : Task A :=
  let caught :=
    match body with
    | (log, Normal a) => (log, Normal a)
    | (log, Throw e) => let (log', c) := handler e in (log ++ log', c)
    end in
  match caught, fin with
  | (log, c), (flog, Normal _) => (log ++ flog, c)
  | (log, _), (flog, Throw e) => (log ++ flog, Throw e)
  end.

(** [await new Promise(resolve => setTimeout(resolve, ms))] *)
Definition sleep (ms : JsVal) : Task unit := call (Sleep ms) (Normal tt).

Definition when (c : bool) (t : Task unit) : Task unit :=
  if c then t else ret tt.

Definition userAgent : string :=
  "Mozilla/5.0 (Windows NT 10.0; Win64; x64) AppleWebKit/537.36 (KHTML, like Gecko) Chrome/91.0.4472.124 Safari/537.36".

(** [this.browser.newPage()]: a [TypeError] when [this.browser] is still
    [null], otherwise whatever the browser answers. *)
Definition newPage (has_browser : bool) (answer : Completion Page) : Task Page :=
  if has_browser then call NewPage answer
  else lift (Throw "TypeError: Cannot read properties of null (reading 'newPage')").

Definition cookieString (cookies : list Cookie) : string :=
  join "; " (map (fun cookie => (name cookie ++ "=" ++ value cookie)%string) cookies).

Definition challenge_title (title : string) : bool :=
  includes title "Just a moment" || includes title "Cloudflare".

(** The body shared, up to the address, by [visitAnimepahe], [visitPaheWin]
    and [visitKiwik]: resolves with the cookie string, or with [null]
    ([None]) when anything inside the [try] threw. *)
Definition visitSite (site : string) (has_browser : bool)
  (answer : Completion Page) : Task (option string) :=
  let! page := newPage has_browser answer in
  try_catch_finally
    (await call (SetUserAgent userAgent) (on_setUserAgent page userAgent) in
     await call (Goto (JStr site) (JStr "networkidle2") (JNum 60000))
                (on_goto page (JStr site) (JStr "networkidle2") (JNum 60000)) in
     await sleep (JNum 5000) in
     let! title := call Title (on_title page) in
     await when (challenge_title title) (sleep (JNum 10000)) in
     let! cookies := call Cookies (on_cookies page) in
     ret (Some (cookieString cookies)))
    (fun error => ret None)
    (call Close (on_close page)).

Definition visitAnimepahe := visitSite "https://animepahe.com".
Definition visitPaheWin := visitSite "https://pahe.win".
Definition visitKiwik := visitSite "https://kwik.si".

(** The object [visitCustomUrl] resolves with. *)
Inductive VisitResult : Type :=
| VisitSuccess (cookies : string) (cookieCount : nat) (url : JsVal) (timestamp : Timestamp)
| VisitFailure (error : string) (url : JsVal) (timestamp : Timestamp).

(** The default of a parameter or of a destructured property
    ([options = {}]): it replaces [undefined] only, not [null]. *)
Definition defaulted (given : JsVal) : JsVal :=
  match given with
  | JUndefined => JObj []
  | _ => given
  end.

(** [options.k] on an [options] that an earlier read has already shown not
    to be [null] or [undefined]: such a read cannot throw.  The first read
    of a block goes through [get], which throws. *)
Definition opt (options : JsVal) (k : string) : JsVal :=
  match get options k with
  | Normal v => v
  | Throw _ => JUndefined
  end.

Definition visitCustomUrl (has_browser : bool) (answer : Completion Page)
  (now : Timestamp) (url given : JsVal) : Task VisitResult :=
  let options := defaulted given in
  let! page := newPage has_browser answer in
  try_catch_finally
    (await call (SetUserAgent userAgent) (on_setUserAgent page userAgent) in
     let! headers := lift (get options "headers") in
     await when (truthy headers)
       (call (SetExtraHTTPHeaders (opt options "headers"))
             (on_setExtraHTTPHeaders page (opt options "headers"))) in
     await when (truthy (opt options "viewport"))
       (call (SetViewport (opt options "viewport"))
             (on_setViewport page (opt options "viewport"))) in
     await (let waitUntil := or_else (opt options "waitUntil") (JStr "networkidle2") in
            let timeout := or_else (opt options "timeout") (JNum 60000) in
            call (Goto url waitUntil timeout) (on_goto page url waitUntil timeout)) in
     await sleep (or_else (opt options "initialWait") (JNum 5000)) in
     let! title := call Title (on_title page) in
     await when (challenge_title title)
       (sleep (or_else (opt options "cloudflareWait") (JNum 10000))) in
     await when (truthy (opt options "additionalWait"))
       (sleep (opt options "additionalWait")) in
     await when (truthy (opt options "executeScript"))
       (call (Evaluate (opt options "executeScript"))
             (on_evaluate page (opt options "executeScript"))) in
     let! cookies := call Cookies (on_cookies page) in
     ret (VisitSuccess (cookieString cookies) (length cookies) url now))
    (fun error => ret (VisitFailure error url now))
    (call Close (on_close page)).

(** *** Reading a log *)

Definition is_close (ev : PageEvent) : bool :=
  match ev with Close => true | _ => false end.

Definition is_newPage (ev : PageEvent) : bool :=
  match ev with NewPage => true | _ => false end.

(** A log that neither opens nor closes a page. *)
Definition inner (log : list PageEvent) : bool :=
  forallb (fun ev => negb (is_close ev) && negb (is_newPage ev)) log.

Definition closes (log : list PageEvent) : nat := length (List.filter is_close log).

(** The log a visit must leave: nothing when [this.browser] is [null], the
    lone failed [newPage] call when the browser refuses, and otherwise the
    opening call, page work, and one closing call at the very end. *)
Definition scoped (has_browser : bool) (answer : Completion Page)
  (mid log : list PageEvent) : Prop :=
  inner mid = true /\
  log = (if has_browser then
           match answer with
           | Normal _ => NewPage :: mid ++ [Close]
           | Throw _ => [NewPage]
           end
         else []).

(** How many pages a visit really obtained. *)
Definition acquired (has_browser : bool) (answer : Completion Page) : nat :=
  if has_browser then match answer with Normal _ => 1 | Throw _ => 0 end else 0.

End Page.
Import Page.

(* ===================================================================== *)
(** ** Option validation of the [/create] route *)
(* ===================================================================== *)

Module Validator.

(** Relational operators, used by the source only behind a
    [typeof ... === 'number'] test. *)
Definition js_gt (v : JsVal) (bound : Q) : bool :=
  match v with JNum q => num_lt bound q | _ => false end.
Definition js_ge (v : JsVal) (bound : Q) : bool :=
  match v with JNum q => num_le bound q | _ => false end.
Definition js_le (v : JsVal) (bound : Q) : bool :=
  match v with JNum q => num_le q bound | _ => false end.

Definition waitUntilModes : list string :=
  ["load"; "domcontentloaded"; "networkidle0"; "networkidle2"].

(** [if (cond) validOptions.k = options.k;] *)
Definition copy_if (cond : bool) (k : string) (options validOptions : JsVal) : JsVal :=
  if cond then set validOptions k (opt options k) else validOptions.

(** The block under [// Validate options], statement by statement, on an
    [options] whose properties can be read (anything but [null] and
    [undefined]); [validated] below is the block with its first read
    guarded. *)
Definition validateOptions (options : JsVal) : JsVal :=
  let validOptions := JObj [] in
  let validOptions :=
    copy_if (truthy (opt options "timeout")
             && String.eqb (typeof (opt options "timeout")) "number"
             && js_gt (opt options "timeout") 0
             && js_le (opt options "timeout") 120000)
      "timeout" options validOptions in
  let validOptions :=
    copy_if (truthy (opt options "waitUntil")
             && includes_lit waitUntilModes (opt options "waitUntil"))
      "waitUntil" options validOptions in
  let validOptions :=
    copy_if (truthy (opt options "initialWait")
             && String.eqb (typeof (opt options "initialWait")) "number"
             && js_ge (opt options "initialWait") 0
             && js_le (opt options "initialWait") 30000)
      "initialWait" options validOptions in
  let validOptions :=
    copy_if (truthy (opt options "cloudflareWait")
             && String.eqb (typeof (opt options "cloudflareWait")) "number"
             && js_ge (opt options "cloudflareWait") 0
             && js_le (opt options "cloudflareWait") 60000)
      "cloudflareWait" options validOptions in
  let validOptions :=
    copy_if (truthy (opt options "additionalWait")
             && String.eqb (typeof (opt options "additionalWait")) "number"
             && js_ge (opt options "additionalWait") 0
             && js_le (opt options "additionalWait") 30000)
      "additionalWait" options validOptions in
  let validOptions :=
    copy_if (truthy (opt options "headers")
             && String.eqb (typeof (opt options "headers")) "object")
      "headers" options validOptions in
  let validOptions :=
    copy_if (truthy (opt options "viewport")
             && String.eqb (typeof (opt options "viewport")) "object")
      "viewport" options validOptions in
  validOptions.

(** The validation block as the route runs it: the first property read,
    [options.timeout], throws a [TypeError] when [options] is [null] (or
    [undefined]); otherwise no read throws and the block builds
    [validOptions]. *)
Definition validated (options : JsVal) : Completion JsVal :=
  match get options "timeout" with
  | Throw e => Throw e
  | Normal _ => Normal (validateOptions options)
  end.

(** The configuration a visit runs with: what [visitCustomUrl] passes to
    [page.goto] and to its timers for a given options object ([None]: the
    step is skipped). *)
Record JobConfig : Type := {
  timeoutMs : JsVal;
  waitUntilMode : JsVal;
  initialWaitMs : JsVal;
  challengeWaitMs : JsVal;
  additionalWaitMs : option JsVal;
  extraHeaders : option JsVal;
  viewport : option JsVal
}.

Definition if_truthy (v : JsVal) : option JsVal :=
  if truthy v then Some v else None.

Definition jobConfig (options : JsVal) : JobConfig :=
  {| timeoutMs := or_else (opt options "timeout") (JNum 60000);
     waitUntilMode := or_else (opt options "waitUntil") (JStr "networkidle2");
     initialWaitMs := or_else (opt options "initialWait") (JNum 5000);
     challengeWaitMs := or_else (opt options "cloudflareWait") (JNum 10000);
     additionalWaitMs := if_truthy (opt options "additionalWait");
     extraHeaders := if_truthy (opt options "headers");
     viewport := if_truthy (opt options "viewport") |}.

(** [validate(raw)]: the validated options, read the way the visit reads
    them. *)
Definition validate (raw : JsVal) : JobConfig := jobConfig (validateOptions raw).

(** The built-in defaults: the configuration of an empty options object. *)
Definition defaults : JobConfig := jobConfig (JObj []).

(** The page calls of a visit on which every call resolves, read off a
    configuration. *)
Definition optional_call (ev : JsVal -> PageEvent) (v : option JsVal) : list PageEvent :=
  match v with
  | Some x => [ev x]
  | None => []
  end.

Definition planned_log (url : JsVal) (challenge : bool) (script : option JsVal)
  (c : JobConfig) : list PageEvent :=
  [NewPage; SetUserAgent userAgent]
  ++ optional_call SetExtraHTTPHeaders (extraHeaders c)
  ++ optional_call SetViewport (viewport c)
  ++ [Goto url (waitUntilMode c) (timeoutMs c); Sleep (initialWaitMs c); Title]
  ++ (if challenge then [Sleep (challengeWaitMs c)] else [])
  ++ optional_call Sleep (additionalWaitMs c)
  ++ optional_call Evaluate script
  ++ [Cookies; Close].

End Validator.
Import Validator.

(* ===================================================================== *)
(** ** The service object and the event loop *)
(* ===================================================================== *)

Module Service.

(** The object literal assigned to [this.cookies] in the constructor. *)
Record CookieJar : Type := {
  animepahe : option string;
  paheWin : option string;
  kiwik : option string;
  lastUpdated : option Timestamp
}.

Definition empty_jar : CookieJar :=
  {| animepahe := None; paheWin := None; kiwik := None; lastUpdated := None |}.

#[export] Instance CookieJar_inhabited : Inhabited CookieJar := populate empty_jar.

Definition set_animepahe (v : string) (j : CookieJar) : CookieJar :=
  {| animepahe := Some v; paheWin := paheWin j; kiwik := kiwik j;
     lastUpdated := lastUpdated j |}.
Definition set_paheWin (v : string) (j : CookieJar) : CookieJar :=
  {| animepahe := animepahe j; paheWin := Some v; kiwik := kiwik j;
     lastUpdated := lastUpdated j |}.
Definition set_kiwik (v : string) (j : CookieJar) : CookieJar :=
  {| animepahe := animepahe j; paheWin := paheWin j; kiwik := Some v;
     lastUpdated := lastUpdated j |}.
Definition set_lastUpdated (t : Timestamp) (j : CookieJar) : CookieJar :=
  {| animepahe := animepahe j; paheWin := paheWin j; kiwik := kiwik j;
     lastUpdated := Some t |}.

(** The puppeteer browser object, as far as the service looks at it. *)
Record Browser : Type := { connected : bool }.

(** Fields of [CookieCollectorService].  [cookies] is a reference: the
    address of the jar in the heap. *)
Record CookieCollectorService : Type := {
  browser : option Browser;
  cookies : nat;
  isCollecting : bool;
  collectionInterval : option nat
}.

(** How a promise handed to [Promise.allSettled] ended. *)
Inductive Settled (A : Type) : Type :=
| Fulfilled (v : A)
| Rejected (reason : string).
Arguments Fulfilled {A} v.
Arguments Rejected {A} reason.

Definition settle {A} (t : Task A) : Settled A :=
  match t with
  | (_, Normal a) => Fulfilled a
  | (_, Throw e) => Rejected e
  end.

(** What the browser answers to the three [newPage] calls of one cycle. *)
Record Answers : Type := {
  for_animepahe : Completion Page;
  for_paheWin : Completion Page;
  for_kiwik : Completion Page
}.

(** A [collectAllCookies] call parked at [await Promise.allSettled(...)],
    with the outcome each of its three jobs will have; [awaited_by_init]
    tells whether [init] is awaiting this call. *)
Record Suspended : Type := {
  animepaheResult : Settled (option string);
  paheWinResult : Settled (option string);
  kiwikResult : Settled (option string);
  awaited_by_init : bool
}.

Record World : Type := {
  heap : gmap nat CookieJar;
  service : CookieCollectorService;
  timers : gset nat;
  next_timer : nat;
  suspended : list Suspended
}.

(** [new CookieCollectorService()] *)
Definition new_world : World :=
  {| heap := {[ 0%nat := empty_jar ]};
     service := {| browser := None; cookies := 0; isCollecting := false;
                   collectionInterval := None |};
     timers := ∅; next_timer := 0; suspended := [] |}.

Definition with_service (f : CookieCollectorService -> CookieCollectorService)
  (w : World) : World :=
  {| heap := heap w; service := f (service w); timers := timers w;
     next_timer := next_timer w; suspended := suspended w |}.

Definition with_suspended (f : list Suspended -> list Suspended) (w : World) : World :=
  {| heap := heap w; service := service w; timers := timers w;
     next_timer := next_timer w; suspended := f (suspended w) |}.

Definition set_isCollecting (b : bool) : World -> World :=
  with_service (fun s =>
    {| browser := browser s; cookies := cookies s; isCollecting := b;
       collectionInterval := collectionInterval s |}).

Definition set_browser (b : option Browser) : World -> World :=
  with_service (fun s =>
    {| browser := b; cookies := cookies s; isCollecting := isCollecting s;
       collectionInterval := collectionInterval s |}).

(** Dereference of a jar address. *)
Definition deref (w : World) (ref : nat) : CookieJar := heap w !!! ref.

(** In-place update of the object [this.cookies] points to. *)
Definition update_jar (f : CookieJar -> CookieJar) (w : World) : World :=
  {| heap := <[ cookies (service w) := f (deref w (cookies (service w))) ]> (heap w);
     service := service w; timers := timers w; next_timer := next_timer w;
     suspended := suspended w |}.

(** [getCookies() { return this.cookies; }]: the reference itself. *)
Definition getCookies (w : World) : nat := cookies (service w).

(** The jar as it is now. *)
Definition jar (w : World) : CookieJar := deref w (getCookies w).

(** [collectionInterval = setInterval(...)] *)
Definition setInterval (w : World) : World :=
  {| heap := heap w;
     service := {| browser := browser (service w); cookies := cookies (service w);
                   isCollecting := isCollecting (service w);
                   collectionInterval := Some (next_timer w) |};
     timers := {[ next_timer w ]} ∪ timers w;
     next_timer := S (next_timer w);
     suspended := suspended w |}.

Definition clearInterval (id : nat) (w : World) : World :=
  {| heap := heap w; service := service w; timers := timers w ∖ {[ id ]};
     next_timer := next_timer w; suspended := suspended w |}.

(** [r.status === 'fulfilled' && r.value]: the value to store, if any. *)
Definition fulfilled_value (r : Settled (option string)) : option string :=
  match r with
  | Fulfilled (Some s) => if String.eqb s "" then None else Some s
  | _ => None
  end.

Definition store_if (v : option string) (setter : string -> CookieJar -> CookieJar)
  (w : World) : World :=
  match v with
  | Some s => update_jar (setter s) w
  | None => w
  end.

(** The three visit promises created by [collectAllCookies]; each call
    runs up to its [this.browser.newPage()] before the next one starts. *)
Definition start_visits (from_init : bool) (a : Answers) (w : World) : Suspended :=
  let has_browser := bool_decide (is_Some (browser (service w))) in
  {| animepaheResult := settle (visitAnimepahe has_browser (for_animepahe a));
     paheWinResult := settle (visitPaheWin has_browser (for_paheWin a));
     kiwikResult := settle (visitKiwik has_browser (for_kiwik a));
     awaited_by_init := from_init |}.

(** First half of [collectAllCookies], up to the [await]: the guard, the
    flag, and the three visits started.  [false] is the early [return]. *)
Definition collectAllCookies_begin (from_init : bool) (a : Answers) (w : World)
  : World * bool :=
  if isCollecting (service w) then (w, false)
  else
    (with_suspended (fun q => q ++ [start_visits from_init a w])
       (set_isCollecting true w), true).

(** Second half: everything after the [await], run in one go. *)
Definition collectAllCookies_resume (now : Timestamp) (p : Suspended) (w : World)
  : World :=
  let w := store_if (fulfilled_value (animepaheResult p)) set_animepahe w in
  let w := store_if (fulfilled_value (paheWinResult p)) set_paheWin w in
  let w := store_if (fulfilled_value (kiwikResult p)) set_kiwik w in
  let w := update_jar (set_lastUpdated now) w in
  set_isCollecting false w.

(** A whole cycle with nothing interleaved between its two halves. *)
Definition collectAllCookies (now : Timestamp) (a : Answers) (w : World) : World :=
  if isCollecting (service w) then w
  else collectAllCookies_resume now (start_visits false a w) (set_isCollecting true w).

End Service.
Import Service.

(* ===================================================================== *)
(** ** Lifecycle, routes and the event loop *)
(* ===================================================================== *)

Module Routes.

(** The JSON bodies the routes send, one constructor per object literal. *)
Inductive Body : Type :=
| ErrorBody (error : string)
| NotCollectedBody (error : string) (state : string)
| CookiesBody (animepahe_c pahewin_c kiwik_c : option string) (updated : Timestamp)
| CreatedBody (cookie_header : string) (cookieCount : nat) (url : JsVal)
    (timestamp : Timestamp)
| CreateFailedBody (error : string) (url : JsVal) (timestamp : Timestamp)
| RefreshBody (message : string) (timestamp : Timestamp)
| StatusBody (collecting : bool) (updated : option Timestamp)
    (hasAnimepahe hasPaheWin hasKiwik : bool).

Record Response : Type := { status : nat; body : Body }.

Definition json (code : nat) (b : Body) : Response := {| status := code; body := b |}.

(** The result of [new URL(x)], as far as the route reads it. *)
Record URL : Type := { protocol : string }.

Section EventLoop.

(** [new URL(x)]: [None] when the constructor throws. *)
Variable parseURL : JsVal -> option URL.

(** [browser.close()]: the browser afterwards and how the promise ends. *)
Variable closeBrowser : Browser -> Browser * Completion unit.

Definition isValidUrl (s : JsVal) : bool :=
  match parseURL s with
  | Some _ => true
  | None => false
  end.

(** The two tests the [/create] route puts on a URL: it parses, and its
    protocol is ["https:"]. *)
Definition absolute_https (url : JsVal) : bool :=
  match parseURL url with
  | Some parsedUrl => String.eqb (protocol parsedUrl) "https:"
  | None => false
  end.

(** [router.get('/')] *)
Definition get_root (w : World) : Response :=
  let cookies := deref w (getCookies w) in
  match lastUpdated cookies with
  | None =>
      json 503 (NotCollectedBody
                  "Cookies not yet collected. Please try again in a few moments."
                  "collecting")
  | Some updated =>
      json 200 (CookiesBody (animepahe cookies) (paheWin cookies) (kiwik cookies)
                  updated)
  end.

Definition has_value (v : option string) : bool :=
  match v with
  | Some s => negb (String.eqb s "")
  | None => false
  end.

(** [router.get('/status')], without the derived [nextCollection] field. *)
Definition get_status (w : World) : Response :=
  let cookies := deref w (getCookies w) in
  json 200 (StatusBody (isCollecting (service w)) (lastUpdated cookies)
              (has_value (animepahe cookies)) (has_value (paheWin cookies))
              (has_value (kiwik cookies))).

(** [router.post('/refresh')] *)
Definition post_refresh (now : Timestamp) (a : Answers) (w : World)
  : World * Response :=
  if isCollecting (service w) then
    (w, json 429 (ErrorBody "Collection already in progress"))
  else
    (fst (collectAllCookies_begin false a w),
     json 200 (RefreshBody "Cookie refresh triggered" now)).

Definition internal_error : Response := json 500 (ErrorBody "Internal server error").

(** The response the [/create] route builds from the outcome of the visit
    (the last [if]/[else] of the handler, and its [catch]). *)
Definition respond (t : Task VisitResult) : list PageEvent * Response :=
  match t with
  | (log, Normal (VisitSuccess c n u t)) => (log, json 200 (CreatedBody c n u t))
  | (log, Normal (VisitFailure e u t)) => (log, json 400 (CreateFailedBody e u t))
  | (log, Throw _) => (log, internal_error)
  end.

(** [router.post('/create')]: the page calls made and the response sent.
    The handler assigns to no field of the service. *)
Definition post_create (now : Timestamp) (answer : Completion Page)
  (reqBody : JsVal) (w : World) : list PageEvent * Response :=
  match get reqBody "url", get reqBody "options" with
  | Normal url, Normal given =>
      let options := defaulted given in
      if negb (truthy url) then ([], json 400 (ErrorBody "URL is required"))
      else if negb (isValidUrl url) then ([], json 400 (ErrorBody "Invalid URL format"))
      else
        match parseURL url with
        | None => ([], internal_error)
        | Some parsedUrl =>
            if negb (String.eqb (protocol parsedUrl) "https:") then
              ([], json 400 (ErrorBody "Only HTTPS URLs are allowed"))
            else if isCollecting (service w) then
              ([], json 429 (ErrorBody "Service is busy, please try again later"))
            else
              match validated options with
              | Throw _ => ([], internal_error)
              | Normal validOptions =>
                  respond (visitCustomUrl
                             (bool_decide (is_Some (browser (service w))))
                             answer now url validOptions)
              end
        end
  | _, _ => ([], internal_error)
  end.

(** [init], after [puppeteer.launch] has resolved with [b]: the browser is
    stored and the startup collection begins; when that call returns at
    once, the interval is installed right away. *)
Definition init_launched (b : Browser) (a : Answers) (w : World) : World * bool :=
  match collectAllCookies_begin true a (set_browser (Some b) w) with
  | (w', true) => (w', true)
  | (w', false) => (setInterval w', false)
  end.

(** The continuation of the oldest parked [collectAllCookies] call, followed
    by the rest of [init] when [init] was awaiting it. *)
Definition all_settled (now : Timestamp) (w : World) : World :=
  match suspended w with
  | [] => w
  | p :: rest =>
      let w' := collectAllCookies_resume now p (with_suspended (fun _ => rest) w) in
      if awaited_by_init p then setInterval w' else w'
  end.

(** [destroy()] *)
Definition destroy (w : World) : World * Completion unit :=
  let w :=
    match collectionInterval (service w) with
    | Some id => clearInterval id w
    | None => w
    end in
  match browser (service w) with
  | Some b => let (b', c) := closeBrowser b in (set_browser (Some b') w, c)
  | None => (w, Normal tt)
  end.

(** Who asks for a collection cycle. *)
Inductive Trigger : Type :=
| Startup (b : Browser)
| Periodic
| Manual (now : Timestamp).

(** What the caller of a trigger gets back. *)
Inductive TriggerReply : Type :=
| Proceeded
| Skipped
| Replied (r : Response).

(** One guarded trigger reaching the service: the rest of [init] once the
    browser is launched, the interval callback, or the [/refresh] route. *)
Definition trigger (t : Trigger) (a : Answers) (w : World) : World * TriggerReply :=
  match t with
  | Startup b =>
      let (w', started) := init_launched b a w in
      (w', if started then Proceeded else Skipped)
  | Periodic =>
      let (w', started) := collectAllCookies_begin false a w in
      (w', if started then Proceeded else Skipped)
  | Manual now =>
      let (w', r) := post_refresh now a w in (w', Replied r)
  end.

(** Everything the event loop can run next. *)
Inductive Event : Type :=
| Triggered (t : Trigger) (a : Answers)
| AllSettled (now : Timestamp)
| GetRoot
| GetStatus
| PostCreate (now : Timestamp) (answer : Completion Page) (reqBody : JsVal)
| Shutdown.

Inductive Output : Type :=
| OutTrigger (r : TriggerReply)
| OutNone
| OutResponse (r : Response)
| OutCreate (log : list PageEvent) (r : Response)
| OutShutdown (c : Completion unit).

Definition step (w : World) (e : Event) : World * Output :=
  match e with
  | Triggered t a => let (w', r) := trigger t a w in (w', OutTrigger r)
  | AllSettled now => (all_settled now w, OutNone)
  | GetRoot => (w, OutResponse (get_root w))
  | GetStatus => (w, OutResponse (get_status w))
  | PostCreate now answer reqBody =>
      let (log, r) := post_create now answer reqBody w in (w, OutCreate log r)
  | Shutdown => let (w', c) := destroy w in (w', OutShutdown c)
  end.

Fixpoint run (w : World) (es : list Event) : World * list Output :=
  match es with
  | [] => (w, [])
  | e :: rest =>
      let (w1, o) := step w e in
      let (w2, os) := run w1 rest in
      (w2, o :: os)
  end.

End EventLoop.

End Routes.
Import Routes.

(* ===================================================================== *)
(** ** The per-field bounds as the specification words them *)
(* ===================================================================== *)

Module Bounds.

Inductive Field : Type :=
| FTimeout | FWaitUntil | FInitialWait | FChallengeWait | FAdditionalWait
| FHeaders | FViewport.

(** The property of the request's options object a field is read from. *)
Definition key (f : Field) : string :=
  match f with
  | FTimeout => "timeout"
  | FWaitUntil => "waitUntil"
  | FInitialWait => "initialWait"
  | FChallengeWait => "cloudflareWait"
  | FAdditionalWait => "additionalWait"
  | FHeaders => "headers"
  | FViewport => "viewport"
  end.

Definition field (f : Field) (c : JobConfig) : option JsVal :=
  match f with
  | FTimeout => Some (timeoutMs c)
  | FWaitUntil => Some (waitUntilMode c)
  | FInitialWait => Some (initialWaitMs c)
  | FChallengeWait => Some (challengeWaitMs c)
  | FAdditionalWait => additionalWaitMs c
  | FHeaders => extraHeaders c
  | FViewport => viewport c
  end.

Definition number_within (strict_low : bool) (low high : Q) (v : JsVal) : bool :=
  match v with
  | JNum q => (if strict_low then num_lt low q else num_le low q) && num_le q high
  | _ => false
  end.

Definition flat_string_map (v : JsVal) : bool :=
  match v with
  | JObj props => forallb (fun kv => match snd kv with JStr _ => true | _ => false end) props
  | _ => false
  end.

Definition width_height_object (v : JsVal) : bool :=
  match v with
  | JObj props =>
      match assoc "width" props, assoc "height" props with
      | JNum _, JNum _ => true
      | _, _ => false
      end
  | _ => false
  end.

(** The table of bounds, row by row: (0, 120000]; one of the four modes;
    [0, 30000]; [0, 60000]; [0, 30000]; a flat string map; a width/height
    object. *)
Definition spec_in_bounds (f : Field) (v : JsVal) : bool :=
  match f with
  | FTimeout => number_within true 0 120000 v
  | FWaitUntil => includes_lit waitUntilModes v
  | FInitialWait => number_within false 0 30000 v
  | FChallengeWait => number_within false 0 60000 v
  | FAdditionalWait => number_within false 0 30000 v
  | FHeaders => flat_string_map v
  | FViewport => width_height_object v
  end.

(** A wait field supplied as the number zero. *)
Definition zero_wait (f : Field) (v : JsVal) : bool :=
  match f, v with
  | (FInitialWait | FChallengeWait | FAdditionalWait), JNum q => Qeq_bool q 0
  | _, _ => false
  end.

(** Arrays and objects of any shape. *)
Definition any_object (v : JsVal) : bool :=
  match v with
  | JArr _ | JObj _ => true
  | _ => false
  end.

(** The acceptance test of the route: the table for the numeric fields and
    the mode, any object for headers and viewport. *)
Definition accepted (f : Field) (v : JsVal) : bool :=
  match f with
  | FHeaders | FViewport => any_object v
  | _ => spec_in_bounds f v
  end.

End Bounds.
Import Bounds.

(* ===================================================================== *)
(** ** Reachable worlds and whole cycles *)
(* ===================================================================== *)

Module Traces.

Section Reach.

Variable parseURL : JsVal -> option URL.
Variable closeBrowser : Browser -> Browser * Completion unit.

(** The worlds the event loop can be in between two tasks. *)
Inductive reachable : World -> Prop :=
| reachable_new : reachable new_world
| reachable_step w e :
    reachable w -> reachable (fst (step parseURL closeBrowser w e)).

(** The number of collection cycles that run to their end along a trace. *)
Fixpoint completions (w : World) (es : list Event) : nat :=
  match es with
  | [] => 0
  | e :: rest =>
      (match e, suspended w with
       | AllSettled _, _ :: _ => 1
       | _, _ => 0
       end + completions (fst (step parseURL closeBrowser w e)) rest)%nat
  end.

End Reach.

(** The single-flight invariant: a parked cycle exactly when the flag is
    set, and never two. *)
Definition single_flight (w : World) : Prop :=
  length (suspended w) = (if isCollecting (service w) then 1 else 0)%nat.

(** What one finished cycle does to a jar. *)
Definition keep_or (v : option string) (old : option string) : option string :=
  match v with
  | Some s => Some s
  | None => old
  end.

Definition cycle_effect (now : Timestamp) (p : Suspended) (j : CookieJar) : CookieJar :=
  {| animepahe := keep_or (fulfilled_value (animepaheResult p)) (animepahe j);
     paheWin := keep_or (fulfilled_value (paheWinResult p)) (paheWin j);
     kiwik := keep_or (fulfilled_value (kiwikResult p)) (kiwik j);
     lastUpdated := Some now |}.

(** Jars produced by whole cycles only. *)
Inductive whole_cycles : CookieJar -> Prop :=
| whole_none : whole_cycles empty_jar
| whole_cycle now p j : whole_cycles j -> whole_cycles (cycle_effect now p j).

(** Replies that turn a trigger away, and replies that let it through. *)
Definition busy (o : Output) : bool :=
  match o with
  | OutTrigger Skipped => true
  | OutTrigger (Replied r) => Nat.eqb (status r) 429
  | _ => false
  end.

Definition proceeded (o : Output) : bool :=
  match o with
  | OutTrigger Proceeded => true
  | OutTrigger (Replied r) => Nat.eqb (status r) 200
  | _ => false
  end.


(** Two worlds with the same heap and the same [this.cookies]. *)
Definition same_store (w w' : World) : Prop :=
  heap w' = heap w /\ cookies (service w') = cookies (service w).

(** The three built-in sites, for statements that range over them. *)
Inductive Site : Type := Animepahe | PaheWin | Kiwik.

Definition record_of (site : Site) (j : CookieJar) : option string :=
  match site with
  | Animepahe => animepahe j
  | PaheWin => paheWin j
  | Kiwik => kiwik j
  end.

Definition result_of (site : Site) (p : Suspended) : Settled (option string) :=
  match site with
  | Animepahe => animepaheResult p
  | PaheWin => paheWinResult p
  | Kiwik => kiwikResult p
  end.

(** The events that run a trigger list. *)
Definition triggered (ts : list (Trigger * Answers)) : list Event :=
  map (fun ta => Triggered (fst ta) (snd ta)) ts.

(** A trace in which no parked cycle is resumed. *)
Definition no_settle (es : list Event) : bool :=
  forallb (fun e => match e with AllSettled _ => false | _ => true end) es.

End Traces.
Import Traces.

(* ===================================================================== *)
(** ** Concrete browsers, pages and requests *)
(* ===================================================================== *)

Module Samples.

(** A URL reader that knows the two web schemes. *)
Definition scheme_parseURL (v : JsVal) : option URL :=
  match v with
  | JStr s =>
      if String.prefix "https://" s then Some {| protocol := "https:" |}
      else if String.prefix "http://" s then Some {| protocol := "http:" |}
      else None
  | _ => None
  end.

(** A browser whose [close] always resolves and leaves it disconnected. *)
Definition quiet_closeBrowser (b : Browser) : Browser * Completion unit :=
  ({| connected := false |}, Normal tt).

(** A page on which every call resolves and that holds the given cookies. *)
Definition good_page (title : string) (cookies : list Cookie) : Page :=
  {| on_setUserAgent := fun _ => Normal tt;
     on_setExtraHTTPHeaders := fun _ => Normal tt;
     on_setViewport := fun _ => Normal tt;
     on_goto := fun _ _ _ => Normal tt;
     on_title := Normal title;
     on_evaluate := fun _ => Normal tt;
     on_cookies := Normal cookies;
     on_close := Normal tt |}.

(** A page whose navigation times out. *)
Definition timeout_page : Page :=
  {| on_setUserAgent := fun _ => Normal tt;
     on_setExtraHTTPHeaders := fun _ => Normal tt;
     on_setViewport := fun _ => Normal tt;
     on_goto := fun _ _ _ => Throw "Navigation timeout of 60000 ms exceeded";
     on_title := Normal "";
     on_evaluate := fun _ => Normal tt;
     on_cookies := Normal [];
     on_close := Normal tt |}.

Definition first_answers : Answers :=
  {| for_animepahe := Normal (good_page "animepahe" [{| name := "sid"; value := "1" |}]);
     for_paheWin := Normal timeout_page;
     for_kiwik := Normal (good_page "kwik" [{| name := "k"; value := "v" |}]) |}.

Definition second_answers : Answers :=
  {| for_animepahe := Normal (good_page "animepahe" [{| name := "sid"; value := "2" |}]);
     for_paheWin := Normal timeout_page;
     for_kiwik := Normal timeout_page |}.

(** The service after [init] has launched the browser and the startup
    cycle has finished at instant 10. *)
Definition started_world : World :=
  fst (run scheme_parseURL quiet_closeBrowser new_world
         [Triggered (Startup {| connected := true |}) first_answers; AllSettled 10%Z]).

(** A [/create] request for a plain-http address. *)
Definition http_request : JsVal :=
  JObj [("url", JStr "http://example.com"); ("options", JObj [])].

(** The request of the specification's example. *)
Definition example_raw : JsVal :=
  JObj [("timeout", JNum 999999); ("waitUntil", JStr "load")].

(** A request with a header map that is not a flat string map and a zero
    initial wait. *)
Definition loose_raw : JsVal :=
  JObj [("headers", JObj [("x-depth", JNum 1)]); ("initialWait", JNum 0)].

(** A request whose three waits are all zero. *)
Definition zero_waits_raw : JsVal :=
  JObj [("initialWait", JNum 0); ("cloudflareWait", JNum 0);
        ("additionalWait", JNum 0)].

(** A [/create] request for an https address with all three waits zero. *)
Definition zero_waits_request : JsVal :=
  JObj [("url", JStr "https://example.com"); ("options", zero_waits_raw)].

End Samples.
Import Samples.

(* ===================================================================== *)
(** ** Outcomes of visits, stamps of traces *)
(* ===================================================================== *)

Module Outcomes.

Definition is_evaluate (ev : PageEvent) : bool :=
  match ev with Evaluate _ => true | _ => false end.

(** What a built-in visit resolves with once its page is open and closes
    cleanly: the cookie string when the four calls inside the [try] all
    resolve, [null] as soon as one of them throws. *)
Definition builtin_outcome (site : string) (page : Page) : option string :=
  match on_setUserAgent page userAgent,
        on_goto page (JStr site) (JStr "networkidle2") (JNum 60000),
        on_title page, on_cookies page with
  | Normal _, Normal _, Normal _, Normal cookies => Some (cookieString cookies)
  | _, _, _, _ => None
  end.

(** The [cookies] field of a custom visit's result, [null] for a failure. *)
Definition cookies_of (r : VisitResult) : option string :=
  match r with
  | VisitSuccess c _ _ _ => Some c
  | VisitFailure _ _ _ => None
  end.

Definition map_completion {A B} (f : A -> B) (c : Completion A) : Completion B :=
  match c with
  | Normal a => Normal (f a)
  | Throw e => Throw e
  end.

(** The calls of a built-in visit on which everything resolves. *)
Definition builtin_log (site : string) (challenge : bool) : list PageEvent :=
  [NewPage; SetUserAgent userAgent;
   Goto (JStr site) (JStr "networkidle2") (JNum 60000); Sleep (JNum 5000); Title]
  ++ (if challenge then [Sleep (JNum 10000)] else [])
  ++ [Cookies; Close].

(** One of the two markers the visits look for in a title. *)
Definition marker (cloudflare : bool) : string :=
  if cloudflare then "Cloudflare" else "Just a moment".

(** No site holds an empty cookie string. *)
Definition no_empty_record (j : CookieJar) : Prop :=
  forall site, record_of site j <> Some "".

Definition is_some {A} (o : option A) : bool :=
  match o with
  | Some _ => true
  | None => false
  end.

(** The seven properties the [/create] route copies. *)
Definition copied_keys : list string :=
  ["timeout"; "waitUntil"; "initialWait"; "cloudflareWait"; "additionalWait";
   "headers"; "viewport"].

Section Stamps.

Variable parseURL : JsVal -> option URL.
Variable closeBrowser : Browser -> Browser * Completion unit.

(** The instants at which a cycle ran to its end along a trace, oldest
    first. *)
Fixpoint stamps (w : World) (es : list Event) : list Timestamp :=
  match es with
  | [] => []
  | e :: rest =>
      match e, suspended w with
      | AllSettled now, _ :: _ => [now]
      | _, _ => []
      end ++ stamps (fst (step parseURL closeBrowser w e)) rest
  end.

(** The collection cycles that ran to their end along a trace, oldest
    first: the instant of each continuation and the parked cycle it resumed,
    with the outcomes that cycle's three jobs had. *)
Fixpoint completed (w : World) (es : list Event) : list (Timestamp * Suspended) :=
  match es with
  | [] => []
  | e :: rest =>
      match e, suspended w with
      | AllSettled now, p :: _ => [(now, p)]
      | _, _ => []
      end ++ completed (fst (step parseURL closeBrowser w e)) rest
  end.

End Stamps.

(** A jar after the given cycles, each applied whole and in order. *)
Definition apply_cycles (cycles : list (Timestamp * Suspended)) (j : CookieJar)
  : CookieJar :=
  fold_left (fun j c => cycle_effect (fst c) (snd c) j) cycles j.

(** The body [GET /] sends for a jar. *)
Definition root_body (j : CookieJar) : Response :=
  match lastUpdated j with
  | None =>
      json 503 (NotCollectedBody
                  "Cookies not yet collected. Please try again in a few moments."
                  "collecting")
  | Some updated =>
      json 200 (CookiesBody (animepahe j) (paheWin j) (kiwik j) updated)
  end.


End Outcomes.
Import Outcomes.

(* ===================================================================== *)
(** * Properties *)
(* ===================================================================== *)

Example includes_challenge : includes "Just a moment..." "Just a moment" = true.
Proof. reflexivity. Qed.

Example includes_clear : includes "Example Domain" "Cloudflare" = false.
Proof. reflexivity. Qed.

Example validate_example :
  validateOptions (JObj [("timeout", JNum 999999); ("waitUntil", JStr "load")])
  = JObj [("waitUntil", JStr "load")].
Proof. reflexivity. Qed.

(* ===================================================================== *)
(** ** Page contexts are scoped to one visit *)
(* ===================================================================== *)

Module PageScope.

Lemma inner_app l1 l2 : inner (l1 ++ l2) = inner l1 && inner l2.
Proof. unfold inner. apply forallb_app. Qed.

Lemma inner_ret {A} (a : A) : inner (fst (ret a)) = true.
Proof. reflexivity. Qed.

Lemma inner_bind {A B} (m : Task A) (k : A -> Task B) :
  inner (fst m) = true -> (forall a, inner (fst (k a)) = true) ->
  inner (fst (bind m k)) = true.
Proof.
  intros Hm Hk. destruct m as [log [a | e]]; simpl in *; [| exact Hm].
  specialize (Hk a). destruct (k a) as [log' c]. simpl in *.
  rewrite inner_app, Hm, Hk. reflexivity.
Qed.

Lemma inner_call {A} (ev : PageEvent) (c : Completion A) :
  is_close ev = false -> is_newPage ev = false -> inner (fst (call ev c)) = true.
Proof. intros H1 H2. simpl. rewrite H1, H2. reflexivity. Qed.

Lemma inner_when (c : bool) (t : Task unit) :
  inner (fst t) = true -> inner (fst (when c t)) = true.
Proof. destruct c; auto. Qed.

Lemma inner_sleep ms : inner (fst (sleep ms)) = true.
Proof. reflexivity. Qed.

Lemma inner_lift {A} (c : Completion A) : inner (fst (lift c)) = true.
Proof. reflexivity. Qed.

Ltac inner_steps :=
  repeat first
    [ apply inner_bind; [| intros ?]
    | apply inner_when
    | apply inner_sleep
    | apply inner_ret
    | apply inner_lift
    | apply inner_call; reflexivity ].

(** The [try]/[catch]/[finally] statement around page work closes the page
    exactly once, last, whichever way the body and the close itself end. *)
Lemma try_finally_close {A} (body : Task A) (handler : string -> Task A)
  (answer : Completion unit) :
  inner (fst body) = true -> (forall e, inner (fst (handler e)) = true) ->
  exists mid, inner mid = true /\
    fst (try_catch_finally body handler (call Close answer)) = mid ++ [Close].
Proof.
  intros Hb Hh. unfold try_catch_finally, call.
  destruct body as [log [a | e]]; simpl in *.
  - exists log. split; [exact Hb |]. destruct answer; reflexivity.
  - specialize (Hh e). destruct (handler e) as [log' c]. simpl in *.
    exists (log ++ log'). rewrite inner_app, Hb, Hh.
    split; [reflexivity |]. destruct answer; reflexivity.
Qed.

Lemma scoped_visit {A} (has_browser : bool) (answer : Completion Page)
  (work : Page -> Task A) :
  (forall page, exists mid, inner mid = true /\ fst (work page) = mid ++ [Close]) ->
  exists mid, scoped has_browser answer mid
                (fst (bind (newPage has_browser answer) work)).
Proof.
  intros Hw. unfold scoped, newPage.
  destruct has_browser; [| exists []; split; reflexivity].
  destruct answer as [page | e]; [| exists []; split; reflexivity].
  destruct (Hw page) as [mid [Hmid Hlog]]. exists mid. split; [exact Hmid |].
  unfold bind, call. destruct (work page) as [log c]. simpl in *. now subst.
Qed.

Lemma visitSite_scoped site has_browser answer :
  exists mid, scoped has_browser answer mid (fst (visitSite site has_browser answer)).
Proof.
  unfold visitSite. apply scoped_visit. intros page.
  apply try_finally_close; [| intros e; apply inner_ret].
  inner_steps.
Qed.

Lemma visitCustomUrl_scoped has_browser answer now url options :
  exists mid, scoped has_browser answer mid
                (fst (visitCustomUrl has_browser answer now url options)).
Proof.
  unfold visitCustomUrl. apply scoped_visit. intros page.
  apply try_finally_close; [| intros e; apply inner_ret].
  inner_steps.
Qed.

Lemma closes_app l1 l2 : closes (l1 ++ l2) = (closes l1 + closes l2)%nat.
Proof. unfold closes. rewrite List.filter_app. apply length_app. Qed.

Lemma closes_inner mid : inner mid = true -> closes mid = 0%nat.
Proof.
  unfold closes, inner. induction mid as [| ev mid IH]; [reflexivity |].
  simpl. intros H. apply andb_prop in H. destruct H as [Hev Hmid].
  apply andb_prop in Hev. destruct Hev as [Hc _].
  destruct (is_close ev); [discriminate |]. exact (IH Hmid).
Qed.

End PageScope.

(** C8. Every visit, built-in or custom, releases the page it acquired on
    every exit path: whatever each page operation does (resolve or reject,
    the close included), the log of the visit is the [newPage] call, page
    work that neither opens nor closes a page, and one [close] as its last
    entry; so the number of closes equals the number of pages acquired
    (one, or none when no page could be opened). *)
Theorem page_closed_exactly_once (site : string) (has_browser : bool)
  (answer : Completion Page) (now : Timestamp) (url options : JsVal) :
  (exists mid, scoped has_browser answer mid
                 (fst (visitSite site has_browser answer))) /\
  (exists mid, scoped has_browser answer mid
                 (fst (visitCustomUrl has_browser answer now url options))) /\
  closes (fst (visitSite site has_browser answer)) = acquired has_browser answer /\
  closes (fst (visitCustomUrl has_browser answer now url options))
  = acquired has_browser answer.
Proof.
  pose proof (PageScope.visitSite_scoped site has_browser answer) as Hs.
  pose proof (PageScope.visitCustomUrl_scoped has_browser answer now url options) as Hc.
  split; [exact Hs |]. split; [exact Hc |].
  destruct Hs as [m1 [Hm1 E1]]. destruct Hc as [m2 [Hm2 E2]].
  rewrite E1, E2. unfold acquired.
  destruct has_browser; [| split; reflexivity].
  destruct answer; [| split; reflexivity].
  change (NewPage :: m1 ++ [Close]) with ([NewPage] ++ m1 ++ [Close]).
  change (NewPage :: m2 ++ [Close]) with ([NewPage] ++ m2 ++ [Close]).
  rewrite !PageScope.closes_app, (PageScope.closes_inner m1 Hm1),
    (PageScope.closes_inner m2 Hm2).
  split; reflexivity.
Qed.

(* ===================================================================== *)
(** ** Option validation *)
(* ===================================================================== *)

Module ValidatorFacts.

(** What the validated object holds under each key: the supplied value when
    the route's test for that key passes, nothing otherwise. *)
Lemma opt_validateOptions (raw : JsVal) :
  let kept (test : JsVal -> bool) (k : string) :=
    opt (validateOptions raw) k
    = (if test (opt raw k) then opt raw k else JUndefined) in
  kept (fun v => truthy v && String.eqb (typeof v) "number"
                 && js_gt v 0 && js_le v 120000) "timeout" /\
  kept (fun v => truthy v && includes_lit waitUntilModes v) "waitUntil" /\
  kept (fun v => truthy v && String.eqb (typeof v) "number"
                 && js_ge v 0 && js_le v 30000) "initialWait" /\
  kept (fun v => truthy v && String.eqb (typeof v) "number"
                 && js_ge v 0 && js_le v 60000) "cloudflareWait" /\
  kept (fun v => truthy v && String.eqb (typeof v) "number"
                 && js_ge v 0 && js_le v 30000) "additionalWait" /\
  kept (fun v => truthy v && String.eqb (typeof v) "object") "headers" /\
  kept (fun v => truthy v && String.eqb (typeof v) "object") "viewport".
Proof.
  cbv zeta beta. unfold validateOptions, copy_if.
  generalize (opt raw "timeout") (opt raw "waitUntil") (opt raw "initialWait")
    (opt raw "cloudflareWait") (opt raw "additionalWait") (opt raw "headers")
    (opt raw "viewport").
  intros v1 v2 v3 v4 v5 v6 v7.
  repeat match goal with
         | |- context [if ?c then set _ _ _ else _] => destruct c
         end;
    repeat split; reflexivity.
Qed.

Lemma positive_truthy (q : Q) : num_lt 0 q = true -> Qeq_bool q 0 = false.
Proof.
  unfold num_lt. intros H. apply negb_true_iff in H.
  destruct (Qeq_bool q 0) eqn:E; [| reflexivity].
  apply Qeq_bool_iff in E.
  assert (Qle_bool q 0 = true) as Hle.
  { apply Qle_bool_iff. rewrite E. apply Qle_refl. }
  congruence.
Qed.

Lemma mode_truthy (v : JsVal) : includes_lit waitUntilModes v = true -> truthy v = true.
Proof.
  destruct v as [| | b | q | s | l | l]; try discriminate.
  unfold includes_lit, waitUntilModes. simpl. rewrite !orb_false_r.
  intros H. destruct (String.eqb s "") eqn:E; [| reflexivity].
  apply String.eqb_eq in E. subst s. discriminate.
Qed.

(** On a supplied value that is not a zero wait, the route's tests agree
    with [accepted]. *)
Lemma route_test_timeout v :
  truthy v && String.eqb (typeof v) "number" && js_gt v 0 && js_le v 120000
  = accepted FTimeout v.
Proof.
  destruct v as [| | b | q | s | l | l]; try reflexivity;
    try (simpl; destruct b; reflexivity);
    try (simpl; rewrite ?andb_false_r; reflexivity).
  simpl. unfold number_within.
  destruct (num_lt 0 q) eqn:E; [| rewrite andb_false_r; reflexivity].
  rewrite (positive_truthy q E). reflexivity.
Qed.

Lemma route_test_wait (f : Field) (high : Q) v :
  zero_wait f v = false ->
  (f = FInitialWait \/ f = FChallengeWait \/ f = FAdditionalWait) ->
  truthy v && String.eqb (typeof v) "number" && js_ge v 0 && js_le v high
  = number_within false 0 high v.
Proof.
  intros Hz Hf.
  destruct v as [| | b | q | s | l | l]; try reflexivity;
    try (simpl; destruct b; reflexivity);
    try (simpl; rewrite ?andb_false_r; reflexivity).
  assert (Qeq_bool q 0 = false) as Hq
    by (destruct Hf as [-> | [-> | ->]]; exact Hz).
  simpl. rewrite Hq. reflexivity.
Qed.

Lemma route_test_object v :
  truthy v && String.eqb (typeof v) "object" = any_object v.
Proof.
  destruct v as [| | b | q | s | l | l]; try reflexivity;
    simpl; rewrite ?andb_false_r; reflexivity.
Qed.

Lemma accepted_truthy (f : Field) v :
  zero_wait f v = false -> accepted f v = true -> truthy v = true.
Proof.
  intros Hz Ha. destruct f; simpl in Ha;
    try (destruct v; try discriminate; reflexivity);
    try (apply mode_truthy; exact Ha);
    destruct v as [| | b | q | s | l | l]; try discriminate;
    simpl in *; try (rewrite Hz; reflexivity).
  unfold number_within in Ha. apply andb_prop in Ha. destruct Ha as [Ha _].
  rewrite (positive_truthy q Ha). reflexivity.
Qed.

End ValidatorFacts.

(** X20. [jobConfig] is the configuration [visitCustomUrl] runs with.  For
    every options value but [null], on a page where every call resolves the
    visit makes exactly the planned calls, in this order: user agent, extra
    headers and viewport when given, navigation with the configured mode and
    timeout, the initial wait, the title read, the challenge wait on a
    challenge title, the additional wait and the script when given, the
    cookie read, the close.  With [null] options the first property read
    throws inside the [try]: the visit makes the calls newPage, setUserAgent
    and close only, and returns a failure. *)
Theorem visitCustomUrl_runs_jobConfig (now : Timestamp) (url options : JsVal)
  (title : string) (cookies : list Cookie) :
  options <> JNull ->
  fst (visitCustomUrl true (Normal (good_page title cookies)) now url options)
  = planned_log url (challenge_title title)
      (if_truthy (opt options "executeScript")) (jobConfig options) /\
  visitCustomUrl true (Normal (good_page title cookies)) now url JNull
  = ([NewPage; SetUserAgent userAgent; Close],
     Normal (VisitFailure "TypeError: Cannot read properties" url now)).
Proof.
  intros Hnn. split; [| reflexivity].
  assert (get (defaulted options) "headers" = Normal (opt options "headers")) as Hh
    by (destruct options; try reflexivity; contradiction).
  assert (forall k, opt (defaulted options) k = opt options k) as Hd
    by (intros k; destruct options; reflexivity).
  unfold visitCustomUrl, planned_log, jobConfig, if_truthy.
  rewrite Hh, !Hd. simpl.
  destruct (truthy (opt options "headers")), (truthy (opt options "viewport")),
    (challenge_title title), (truthy (opt options "additionalWait")),
    (truthy (opt options "executeScript")); reflexivity.
Qed.

Lemma visitCustomUrl_runs_jobConfig_witness :
  fst (visitCustomUrl true (Normal (good_page "Just a moment..." [])) 50%Z
         (JStr "https://example.com") (validateOptions example_raw))
  = planned_log (JStr "https://example.com") (challenge_title "Just a moment...")
      (if_truthy (opt (validateOptions example_raw) "executeScript"))
      (jobConfig (validateOptions example_raw)) /\
  visitCustomUrl true (Normal (good_page "Just a moment..." [])) 50%Z
    (JStr "https://example.com") JNull
  = ([NewPage; SetUserAgent userAgent; Close],
     Normal (VisitFailure "TypeError: Cannot read properties"
               (JStr "https://example.com") 50%Z)).
Proof.
  exact (visitCustomUrl_runs_jobConfig 50%Z (JStr "https://example.com")
           (validateOptions example_raw) "Just a moment..." []
           ltac:(discriminate)).
Defined.

(** C4, as stated, fails: headers outside the stated bound (not a flat
    string map) are kept instead of dropped; an initial wait of zero, inside
    its bound, is replaced by the default; and a request whose options are
    [null] is rejected as a whole, with a 500. *)
Lemma validate_not_by_stated_bounds :
  (spec_in_bounds FHeaders (opt loose_raw (key FHeaders)) = false /\
   field FHeaders (validate loose_raw) = Some (JObj [("x-depth", JNum 1)]) /\
   field FHeaders (validate loose_raw) <> field FHeaders defaults) /\
  (spec_in_bounds FInitialWait (opt loose_raw (key FInitialWait)) = true /\
   field FInitialWait (validate loose_raw) = Some (JNum 5000) /\
   field FInitialWait (validate loose_raw)
   <> Some (opt loose_raw (key FInitialWait))) /\
  (validated JNull = Throw "TypeError: Cannot read properties" /\
   post_create scheme_parseURL 50%Z (Normal (good_page "Example Domain" []))
     (JObj [("url", JStr "https://example.com"); ("options", JNull)]) started_world
   = ([], json 500 (ErrorBody "Internal server error"))).
Proof.
  repeat split; try reflexivity; vm_compute; discriminate.
Qed.

(** C4 (amended). For options that are not [null] (absent options are
    replaced by [{}] before validation), validation works field by field and
    does not reject the request.  The validation block runs without
    throwing; for every field whose supplied value is not a zero
    wait, the field of the resulting configuration is the supplied value
    when it passes the route's test (the stated bound for timeout, mode and
    the three waits; any object or array for headers and viewport) and the
    built-in default otherwise; and a request with a well-formed https URL,
    received while no cycle runs, always goes on to the visit with the
    validated options and is answered from the visit's outcome.  With
    [null] options the block throws on its first property read.  On the
    example request the timeout is the default and the mode ["load"] is
    preserved. *)
Theorem validate_field_by_field (raw : JsVal) (f : Field) :
  raw <> JNull ->
  raw <> JUndefined ->
  zero_wait f (opt raw (key f)) = false ->
  validated raw = Normal (validateOptions raw) /\
  field f (validate raw)
  = (if accepted f (opt raw (key f)) then Some (opt raw (key f))
     else field f defaults) /\
  (forall (parseURL : JsVal -> option URL) (now : Timestamp)
          (answer : Completion Page) (url : JsVal) (w : World),
      truthy url = true ->
      absolute_https parseURL url = true ->
      isCollecting (service w) = false ->
      post_create parseURL now answer (JObj [("url", url); ("options", raw)]) w
      = respond (visitCustomUrl (bool_decide (is_Some (browser (service w))))
                   answer now url (validateOptions raw))) /\
  validated JNull = Throw "TypeError: Cannot read properties" /\
  timeoutMs (validate example_raw) = timeoutMs defaults /\
  waitUntilMode (validate example_raw) = JStr "load".
Proof.
  intros Hnull Hundef Hz.
  assert (validated raw = Normal (validateOptions raw)) as Hvalid
    by (destruct raw; try reflexivity; contradiction).
  split; [exact Hvalid |].
  split; [| split; [| repeat split; reflexivity]].
  2:{ intros parseURL now answer url w Ht Hs Hb.
      unfold absolute_https in Hs. unfold post_create, isValidUrl. simpl.
      rewrite Ht. simpl. destruct (parseURL url) as [parsedUrl |]; [| discriminate].
      simpl. rewrite Hs, Hb. simpl.
      replace (defaulted raw) with raw by (destruct raw; try reflexivity; contradiction).
      rewrite Hvalid. reflexivity. }
  pose proof (ValidatorFacts.accepted_truthy f _ Hz) as Ht.
  destruct (ValidatorFacts.opt_validateOptions raw)
    as (H1 & H2 & H3 & H4 & H5 & H6 & H7).
  destruct f; unfold validate, jobConfig, field, if_truthy; simpl key in *.
  - rewrite H1, ValidatorFacts.route_test_timeout.
    destruct (accepted FTimeout (opt raw "timeout")); [| reflexivity].
    unfold or_else. rewrite Ht; reflexivity.
  - rewrite H2.
    change (accepted FWaitUntil (opt raw "waitUntil"))
      with (includes_lit waitUntilModes (opt raw "waitUntil")) in *.
    destruct (includes_lit waitUntilModes (opt raw "waitUntil")) eqn:E.
    + rewrite (Ht eq_refl). simpl. unfold or_else. rewrite (Ht eq_refl). reflexivity.
    + rewrite andb_false_r. reflexivity.
  - rewrite H3, (ValidatorFacts.route_test_wait FInitialWait) by auto.
    change (number_within false 0 30000 (opt raw "initialWait"))
      with (accepted FInitialWait (opt raw "initialWait")).
    destruct (accepted FInitialWait (opt raw "initialWait")); [| reflexivity].
    unfold or_else. rewrite Ht; reflexivity.
  - rewrite H4, (ValidatorFacts.route_test_wait FChallengeWait) by auto.
    change (number_within false 0 60000 (opt raw "cloudflareWait"))
      with (accepted FChallengeWait (opt raw "cloudflareWait")).
    destruct (accepted FChallengeWait (opt raw "cloudflareWait")); [| reflexivity].
    unfold or_else. rewrite Ht; reflexivity.
  - rewrite H5, (ValidatorFacts.route_test_wait FAdditionalWait) by auto.
    change (number_within false 0 30000 (opt raw "additionalWait"))
      with (accepted FAdditionalWait (opt raw "additionalWait")).
    destruct (accepted FAdditionalWait (opt raw "additionalWait")); [| reflexivity].
    rewrite Ht; reflexivity.
  - rewrite H6, ValidatorFacts.route_test_object.
    change (any_object (opt raw "headers"))
      with (accepted FHeaders (opt raw "headers")).
    destruct (accepted FHeaders (opt raw "headers")); [| reflexivity].
    rewrite Ht; reflexivity.
  - rewrite H7, ValidatorFacts.route_test_object.
    change (any_object (opt raw "viewport"))
      with (accepted FViewport (opt raw "viewport")).
    destruct (accepted FViewport (opt raw "viewport")); [| reflexivity].
    rewrite Ht; reflexivity.
Qed.

Lemma validate_field_by_field_witness :
  validated example_raw = Normal (validateOptions example_raw) /\
  field FTimeout (validate example_raw) = Some (JNum 60000).
Proof.
  pose proof (validate_field_by_field example_raw FTimeout
                ltac:(discriminate) ltac:(discriminate) eq_refl) as H.
  exact (conj (proj1 H) (proj1 (proj2 H))).
Defined.

(** C5 (evaluation at the failing input). Zero waits lie inside the stated
    closed bounds, yet validation drops all three: the visit then runs with
    the default initial wait of 5000 and challenge wait of 10000, and an
    options object that did carry a zero would be read the same way. *)
Lemma zero_waits_not_preserved :
  spec_in_bounds FInitialWait (JNum 0) = true /\
  spec_in_bounds FChallengeWait (JNum 0) = true /\
  spec_in_bounds FAdditionalWait (JNum 0) = true /\
  validateOptions zero_waits_raw = JObj [] /\
  initialWaitMs (validate zero_waits_raw) = JNum 5000 /\
  challengeWaitMs (validate zero_waits_raw) = JNum 10000 /\
  additionalWaitMs (validate zero_waits_raw) = None /\
  initialWaitMs (jobConfig zero_waits_raw) = JNum 5000 /\
  fst (post_create scheme_parseURL 50%Z
         (Normal (good_page "Just a moment..." [])) zero_waits_request started_world)
  = [NewPage; SetUserAgent userAgent;
     Goto (JStr "https://example.com") (JStr "networkidle2") (JNum 60000);
     Sleep (JNum 5000); Title; Sleep (JNum 10000); Cookies; Close].
Proof. repeat split; vm_compute; reflexivity. Qed.

(* ===================================================================== *)
(** ** The store and the event loop *)
(* ===================================================================== *)

Module ServiceFacts.

Lemma jar_update_jar f w : jar (update_jar f w) = f (jar w).
Proof.
  unfold jar, getCookies, deref, update_jar. simpl.
  apply lookup_total_insert_eq.
Qed.

Lemma jar_store_if v setter w :
  jar (store_if v setter w) = match v with Some s => setter s (jar w) | None => jar w end.
Proof. destruct v; [apply jar_update_jar | reflexivity]. Qed.

Lemma same_store_refl w : same_store w w.
Proof. split; reflexivity. Qed.

Lemma same_store_trans w1 w2 w3 :
  same_store w1 w2 -> same_store w2 w3 -> same_store w1 w3.
Proof. intros [H1 H2] [H3 H4]. split; congruence. Qed.

Lemma same_store_jar w w' : same_store w w' -> jar w' = jar w.
Proof. intros [Hh Hc]. unfold jar, getCookies, deref. rewrite Hh, Hc. reflexivity. Qed.

Lemma service_store_if v setter w : service (store_if v setter w) = service w.
Proof. destruct v; reflexivity. Qed.

Lemma suspended_store_if v setter w : suspended (store_if v setter w) = suspended w.
Proof. destruct v; reflexivity. Qed.

(** The second half of a cycle, seen on the jar. *)
Lemma jar_resume now p w :
  jar (collectAllCookies_resume now p w) = cycle_effect now p (jar w).
Proof.
  unfold collectAllCookies_resume.
  change (jar (set_isCollecting false ?x)) with (jar x).
  rewrite jar_update_jar, !jar_store_if. unfold cycle_effect.
  destruct (fulfilled_value (animepaheResult p)),
    (fulfilled_value (paheWinResult p)), (fulfilled_value (kiwikResult p));
    reflexivity.
Qed.

Lemma resume_service now p w :
  service (collectAllCookies_resume now p w)
  = {| browser := browser (service w); cookies := cookies (service w);
       isCollecting := false; collectionInterval := collectionInterval (service w) |}.
Proof.
  unfold collectAllCookies_resume, set_isCollecting, with_service. simpl.
  rewrite !service_store_if. reflexivity.
Qed.

Lemma resume_suspended now p w :
  suspended (collectAllCookies_resume now p w) = suspended w.
Proof.
  unfold collectAllCookies_resume. simpl. rewrite !suspended_store_if. reflexivity.
Qed.

Section Loop.

Variable parseURL : JsVal -> option URL.
Variable closeBrowser : Browser -> Browser * Completion unit.

#[local] Abbreviation step := (step parseURL closeBrowser).
#[local] Abbreviation run := (run parseURL closeBrowser).
#[local] Abbreviation reachable := (reachable parseURL closeBrowser).
#[local] Abbreviation completions := (completions parseURL closeBrowser).

Lemma destroy_same_store w : same_store w (fst (destroy closeBrowser w)).
Proof.
  unfold destroy. destruct (collectionInterval (service w)); simpl;
    destruct (browser (service w)); simpl;
    try destruct (closeBrowser _); split; reflexivity.
Qed.

Lemma trigger_same_store t a w : same_store w (fst (trigger t a w)).
Proof.
  destruct t as [b | | now]; unfold trigger, init_launched, post_refresh;
    unfold collectAllCookies_begin; simpl;
    destruct (isCollecting (service w)); split; reflexivity.
Qed.

(** Only the continuation of a parked cycle writes to the store. *)
Lemma step_same_store w e :
  match e with AllSettled _ => False | _ => True end ->
  same_store w (fst (step w e)).
Proof.
  destruct e as [t a | now | | | now answer reqBody |]; simpl; intros H;
    try contradiction; try (split; reflexivity).
  - pose proof (trigger_same_store t a w) as Hs.
    destruct (trigger t a w); exact Hs.
  - destruct (post_create _ _ _ _ _); split; reflexivity.
  - pose proof (destroy_same_store w) as Hs.
    destruct (destroy closeBrowser w); exact Hs.
Qed.

Lemma step_jar w e :
  match e with AllSettled _ => False | _ => True end ->
  jar (fst (step w e)) = jar w.
Proof. intros He. apply same_store_jar, step_same_store, He. Qed.

(** [this.cookies] is assigned in the constructor only. *)
Lemma step_cookies w e : cookies (service (fst (step w e))) = cookies (service w).
Proof.
  destruct e as [t a | now | | | now answer reqBody |];
    try (apply (step_same_store w); exact I).
  simpl. unfold all_settled. destruct (suspended w) as [| p rest]; [reflexivity |].
  destruct (awaited_by_init p);
    [change (cookies (service (setInterval ?x))) with (cookies (service x)) |];
    rewrite resume_service; reflexivity.
Qed.

Lemma run_cookies es w : cookies (service (fst (run w es))) = cookies (service w).
Proof.
  revert w. induction es as [| e es IH]; intros w; [reflexivity |].
  simpl. pose proof (step_cookies w e) as Hc.
  destruct (step w e) as [w1 o]. specialize (IH w1).
  destruct (run w1 es) as [w2 os]. simpl in *. congruence.
Qed.

Lemma jar_all_settled now w p rest :
  suspended w = p :: rest ->
  jar (all_settled now w) = cycle_effect now p (jar w).
Proof.
  intros Hs. unfold all_settled. rewrite Hs.
  assert (jar (collectAllCookies_resume now p (with_suspended (fun _ => rest) w))
          = cycle_effect now p (jar w)) as H
    by exact (jar_resume now p (with_suspended (fun _ => rest) w)).
  destruct (awaited_by_init p); exact H.
Qed.

Lemma all_settled_idle now w : suspended w = [] -> all_settled now w = w.
Proof. intros Hs. unfold all_settled. rewrite Hs. reflexivity. Qed.

(** A trigger that finds the flag set is turned away and parks nothing. *)
Lemma trigger_when_busy t a w :
  isCollecting (service w) = true ->
  busy (OutTrigger (snd (trigger t a w))) = true /\
  suspended (fst (trigger t a w)) = suspended w /\
  isCollecting (service (fst (trigger t a w))) = true.
Proof.
  intros Hb.
  destruct t as [b | | now]; unfold trigger, init_launched, post_refresh,
    collectAllCookies_begin; simpl; rewrite Hb; simpl; auto.
Qed.

(** A trigger that finds the flag clear sets it and parks its own cycle. *)
Lemma trigger_when_idle t a w :
  isCollecting (service w) = false ->
  proceeded (OutTrigger (snd (trigger t a w))) = true /\
  (exists i, suspended (fst (trigger t a w))
             = suspended w ++ [start_visits i a (fst (trigger t a w))]) /\
  isCollecting (service (fst (trigger t a w))) = true.
Proof.
  intros Hb.
  destruct t as [b | | now]; unfold trigger, init_launched, post_refresh,
    collectAllCookies_begin; simpl; rewrite Hb; simpl;
    (split; [reflexivity | split; [eexists; reflexivity | reflexivity]]).
Qed.

Lemma destroy_flight w :
  suspended (fst (destroy closeBrowser w)) = suspended w /\
  isCollecting (service (fst (destroy closeBrowser w))) = isCollecting (service w).
Proof.
  unfold destroy. destruct (collectionInterval (service w)); simpl;
    destruct (browser (service w)); simpl;
    try destruct (closeBrowser _); split; reflexivity.
Qed.

(** While a cycle is parked, nothing but its own continuation touches the
    store, the flag or the parked cycle. *)
Lemma mid_cycle_step w e :
  isCollecting (service w) = true ->
  match e with AllSettled _ => False | _ => True end ->
  same_store w (fst (step w e)) /\
  suspended (fst (step w e)) = suspended w /\
  isCollecting (service (fst (step w e))) = true.
Proof.
  intros Hb He. split; [apply step_same_store; exact He |].
  destruct e as [t a | now | | | now answer reqBody |]; simpl;
    try contradiction; auto.
  - destruct (trigger_when_busy t a w Hb) as (_ & H1 & H2).
    destruct (trigger t a w); auto.
  - destruct (post_create _ _ _ _ _); auto.
  - destruct (destroy_flight w) as [H1 H2].
    destruct (destroy closeBrowser w); simpl in *. split; congruence.
Qed.

Lemma mid_cycle_run es w :
  isCollecting (service w) = true -> no_settle es = true ->
  same_store w (fst (run w es)) /\
  suspended (fst (run w es)) = suspended w /\
  isCollecting (service (fst (run w es))) = true.
Proof.
  revert w. induction es as [| e es IH]; intros w Hb Hn.
  - simpl. split; [apply same_store_refl | auto].
  - simpl in Hn. apply andb_prop in Hn. destruct Hn as [He Hn].
    assert (match e with AllSettled _ => False | _ => True end) as He'
      by (destruct e; try exact I; discriminate).
    destruct (mid_cycle_step w e Hb He') as (S1 & S2 & S3).
    simpl. destruct (step w e) as [w1 o]. simpl in *.
    destruct (IH w1 S3 Hn) as (T1 & T2 & T3).
    destruct (run w1 es) as [w2 os]. simpl in *.
    split; [eapply same_store_trans; eassumption |]. split; congruence.
Qed.

(** The single-flight invariant is kept by every step. *)
Lemma single_flight_step w e :
  single_flight w -> single_flight (fst (step w e)).
Proof.
  unfold single_flight. intros Hinv.
  destruct (isCollecting (service w)) eqn:Hb.
  - destruct e as [t a | now | | | now answer reqBody |].
    2:{ simpl. unfold all_settled.
        destruct (suspended w) as [| p [| q rest]]; try discriminate.
        assert (forall w', suspended w' = [] -> isCollecting (service w') = false ->
                           length (suspended w')
                           = (if isCollecting (service w') then 1 else 0)%nat) as Hidle
          by (intros w' -> ->; reflexivity).
        destruct (awaited_by_init p); apply Hidle;
          try (change (suspended (setInterval ?x)) with (suspended x));
          try (change (isCollecting (service (setInterval ?x)))
                 with (isCollecting (service x)));
          rewrite ?resume_suspended, ?resume_service; reflexivity. }
    all: match goal with
         | Hflag : isCollecting (service ?w0) = true
           |- context [Routes.step _ _ ?w0 ?e] =>
             destruct (mid_cycle_step w0 e Hflag I) as (_ & H1 & H2)
         end; rewrite H1, H2; assumption.
  - destruct (suspended w) as [| p rest] eqn:Hs; [| discriminate].
    destruct e as [t a | now | | | now answer reqBody |]; simpl.
    + destruct (trigger_when_idle t a w Hb) as (_ & [i H1] & H2).
      destruct (trigger t a w) as [w' r]. simpl in *.
      rewrite H1, H2, Hs. reflexivity.
    + rewrite (all_settled_idle now w Hs), Hs, Hb. reflexivity.
    + rewrite Hs, Hb. reflexivity.
    + rewrite Hs, Hb. reflexivity.
    + destruct (post_create _ _ _ _ _). simpl. rewrite Hs, Hb. reflexivity.
    + destruct (destroy_flight w) as [H1 H2].
      destruct (destroy closeBrowser w). simpl in *.
      rewrite H1, H2, Hs, Hb. reflexivity.
Qed.

Lemma reachable_single_flight w : reachable w -> single_flight w.
Proof.
  induction 1 as [| w e _ IH]; [reflexivity | apply single_flight_step, IH].
Qed.

Lemma reachable_run es w : reachable w -> reachable (fst (run w es)).
Proof.
  revert w. induction es as [| e es IH]; intros w Hr; [exact Hr |].
  simpl. pose proof (reachable_step parseURL closeBrowser w e Hr) as H1.
  destruct (step w e) as [w1 o]. simpl in H1. specialize (IH w1 H1).
  destruct (run w1 es). exact IH.
Qed.

(** A run of triggers against a world whose flag is set. *)
Lemma triggers_when_busy ts w :
  isCollecting (service w) = true ->
  forallb busy (snd (run w (triggered ts))) = true /\
  suspended (fst (run w (triggered ts))) = suspended w /\
  isCollecting (service (fst (run w (triggered ts)))) = true.
Proof.
  revert w. induction ts as [| [t a] ts IH]; intros w Hb; [simpl; auto |].
  destruct (trigger_when_busy t a w Hb) as (B1 & B2 & B3).
  simpl. destruct (trigger t a w) as [w1 r]. simpl in *.
  destruct (IH w1 B3) as (C1 & C2 & C3).
  destruct (run w1 (triggered ts)) as [w2 os]. simpl in *.
  rewrite B1, C1. split; [reflexivity |]. split; congruence.
Qed.

End Loop.

End ServiceFacts.

Example started_world_jar :
  jar started_world
  = {| animepahe := Some "sid=1"; paheWin := None; kiwik := Some "k=v";
       lastUpdated := Some 10%Z |}.
Proof. vm_compute. reflexivity. Qed.

(* ===================================================================== *)
(** ** Single flight *)
(* ===================================================================== *)

(** C1. Single-flight guard. From any reachable state, when two or more
    guarded triggers (startup, periodic, manual refresh) reach the service
    before the running cycle's continuation, exactly one cycle is parked
    afterwards: if a cycle was already running every trigger is turned away
    at once (a 429 response for the refresh route, an immediate return for
    the internal callers) and nothing is queued; if the service was idle the
    first trigger alone performs the transition and proceeds, and all the
    others are turned away. *)
Theorem single_flight_guard (parseURL : JsVal -> option URL)
  (closeBrowser : Browser -> Browser * Completion unit)
  (w : World) (ts : list (Trigger * Answers)) :
  reachable parseURL closeBrowser w ->
  (2 <= length ts)%nat ->
  let result := run parseURL closeBrowser w (triggered ts) in
  length (suspended (fst result)) = 1%nat /\
  isCollecting (service (fst result)) = true /\
  match isCollecting (service w) with
  | true => forallb busy (snd result) = true /\
            suspended (fst result) = suspended w
  | false => exists o rest,
               snd result = o :: rest /\ proceeded o = true /\
               forallb busy rest = true /\ length rest = (length ts - 1)%nat
  end.
Proof.
  intros Hr Hn result.
  pose proof (ServiceFacts.reachable_single_flight _ _ w Hr) as Hinv.
  unfold single_flight in Hinv. subst result.
  destruct (isCollecting (service w)) eqn:Hb.
  - destruct (ServiceFacts.triggers_when_busy parseURL closeBrowser ts w Hb)
      as (B1 & B2 & B3).
    rewrite B2. auto.
  - destruct ts as [| [t a] ts]; [simpl in Hn; lia |].
    destruct (suspended w) as [| p q] eqn:Hs; [| discriminate].
    destruct (ServiceFacts.trigger_when_idle t a w Hb) as (P1 & [i P2] & P3).
    simpl. destruct (trigger t a w) as [w1 r]. simpl in *.
    destruct (ServiceFacts.triggers_when_busy parseURL closeBrowser ts w1 P3)
      as (B1 & B2 & B3).
    assert (length (snd (run parseURL closeBrowser w1 (triggered ts))) = length ts)
      as Hlen.
    { clear. revert w1. induction ts as [| [t a] ts IH]; intros w1; [reflexivity |].
      simpl. destruct (trigger t a w1) as [w2 r]. specialize (IH w2).
      destruct (run parseURL closeBrowser w2 (triggered ts)). simpl in *.
      now rewrite IH. }
    destruct (run parseURL closeBrowser w1 (triggered ts)) as [w2 os]. simpl in *.
    rewrite B2, P2, Hs. split; [reflexivity |]. split; [exact B3 |].
    exists (OutTrigger r), os. repeat split; auto. lia.
Qed.

Lemma single_flight_guard_witness :
  let ts := [(Manual 1%Z, first_answers); (Periodic, second_answers);
             (Manual 2%Z, second_answers)] in
  let result := run scheme_parseURL quiet_closeBrowser new_world (triggered ts) in
  length (suspended (fst result)) = 1%nat /\
  isCollecting (service (fst result)) = true /\
  exists o rest,
    snd result = o :: rest /\ proceeded o = true /\
    forallb busy rest = true /\ length rest = 2%nat.
Proof.
  exact (single_flight_guard scheme_parseURL quiet_closeBrowser new_world
           [(Manual 1%Z, first_answers); (Periodic, second_answers);
            (Manual 2%Z, second_answers)]
           (reachable_new _ _) ltac:(simpl; lia)).
Defined.

(* ===================================================================== *)
(** ** One collection cycle *)
(* ===================================================================== *)

Module CycleFacts.

Section Cycle.

Variable parseURL : JsVal -> option URL.
Variable closeBrowser : Browser -> Browser * Completion unit.

#[local] Abbreviation step := (step parseURL closeBrowser).
#[local] Abbreviation run := (run parseURL closeBrowser).
#[local] Abbreviation reachable := (reachable parseURL closeBrowser).
#[local] Abbreviation completions := (completions parseURL closeBrowser).

Ltac frame_jar :=
  match goal with
  | |- context [jar (fst (Routes.step ?p ?c ?w ?e))] =>
      rewrite (ServiceFacts.step_jar p c w e I)
  end.

(** A cycle from trigger to continuation, with anything but a continuation
    in between: what is parked, and the jar before and after. *)
Lemma cycle_shape w t a es now :
  reachable w -> isCollecting (service w) = false -> no_settle es = true ->
  let w1 := fst (step w (Triggered t a)) in
  let w2 := fst (run w1 es) in
  let w3 := fst (step w2 (AllSettled now)) in
  exists i,
    suspended w2 = [start_visits i a w1] /\
    jar w1 = jar w /\ jar w2 = jar w /\
    jar w3 = cycle_effect now (start_visits i a w1) (jar w) /\
    suspended w3 = [] /\ isCollecting (service w3) = false.
Proof.
  intros Hr Hb Hn w1 w2 w3.
  pose proof (ServiceFacts.reachable_single_flight _ _ w Hr) as Hinv.
  unfold single_flight in Hinv. rewrite Hb in Hinv.
  destruct (suspended w) as [| p0 q0] eqn:Hs; [| discriminate].
  destruct (ServiceFacts.trigger_when_idle t a w Hb) as (_ & [i P2] & P3).
  pose proof (ServiceFacts.trigger_same_store t a w) as Hst.
  assert (w1 = fst (trigger t a w)) as Hw1
    by (subst w1; simpl; destruct (trigger t a w); reflexivity).
  rewrite <- Hw1 in P2, P3, Hst. rewrite Hs in P2. simpl in P2.
  destruct (ServiceFacts.mid_cycle_run parseURL closeBrowser es w1 P3 Hn)
    as (M1 & M2 & M3).
  fold w2 in M1, M2, M3. rewrite P2 in M2.
  exists i. split; [exact M2 |].
  pose proof (ServiceFacts.same_store_jar _ _ Hst) as J1.
  pose proof (ServiceFacts.same_store_jar _ _ M1) as J2.
  split; [exact J1 |]. split; [congruence |].
  subst w3. simpl.
  split; [rewrite (ServiceFacts.jar_all_settled now w2 _ _ M2); congruence |].
  unfold all_settled. rewrite M2.
  destruct (awaited_by_init (start_visits i a w1));
    try (change (suspended (setInterval ?x)) with (suspended x));
    try (change (isCollecting (service (setInterval ?x)))
           with (isCollecting (service x)));
    rewrite ServiceFacts.resume_suspended, ServiceFacts.resume_service;
    split; reflexivity.
Qed.

Lemma completions_no_settle es w : no_settle es = true -> completions w es = 0%nat.
Proof.
  revert w. induction es as [| e es IH]; intros w Hn; [reflexivity |].
  simpl in Hn. apply andb_prop in Hn. destruct Hn as [He Hn].
  simpl. rewrite (IH _ Hn). destruct e; try reflexivity; discriminate.
Qed.

Lemma completions_app es1 es2 w :
  completions w (es1 ++ es2)
  = (completions w es1 + completions (fst (run w es1)) es2)%nat.
Proof.
  revert w. induction es1 as [| e es1 IH]; intros w; [reflexivity |].
  simpl. rewrite IH. destruct (step w e) as [w1 o]. simpl.
  destruct (run w1 es1) as [w2 os]. simpl. lia.
Qed.

(** Along any trace the stamp is what it was until the first cycle ends,
    and is set from then on. *)
Lemma lastUpdated_run es w :
  match completions w es with
  | O => lastUpdated (jar (fst (run w es))) = lastUpdated (jar w)
  | S _ => is_Some (lastUpdated (jar (fst (run w es))))
  end.
Proof.
  revert w. induction es as [| e es IH]; intros w; [reflexivity |].
  simpl. specialize (IH (fst (step w e))).
  assert (match e, suspended w with
          | AllSettled _, _ :: _ => is_Some (lastUpdated (jar (fst (step w e))))
          | _, _ => lastUpdated (jar (fst (step w e))) = lastUpdated (jar w)
          end) as Hstep.
  { destruct e as [t a | now | | | now answer reqBody |];
      try (frame_jar; reflexivity).
    destruct (suspended w) as [| p rest] eqn:Hs.
    - simpl. rewrite (ServiceFacts.all_settled_idle now w Hs). reflexivity.
    - simpl. rewrite (ServiceFacts.jar_all_settled now w p rest Hs). simpl. eauto. }
  destruct (step w e) as [w1 o]. simpl in *.
  destruct (run w1 es) as [w2 os]. simpl in *.
  destruct e as [t a | now | | | now answer reqBody |]; simpl;
    try (destruct (completions w1 es); [congruence | exact IH]).
  destruct (suspended w) as [| p rest]; simpl.
  - destruct (completions w1 es); [congruence | exact IH].
  - destruct (completions w1 es); [rewrite IH; exact Hstep | exact IH].
Qed.

Lemma jar_new_world : jar new_world = empty_jar.
Proof. reflexivity. Qed.

(** Every reachable jar is the work of whole cycles. *)
Lemma reachable_whole_cycles w : reachable w -> whole_cycles (jar w).
Proof.
  induction 1 as [| w e _ IH]; [rewrite jar_new_world; constructor |].
  destruct e as [t a | now | | | now answer reqBody |];
    try (frame_jar; exact IH).
  simpl. destruct (suspended w) as [| p rest] eqn:Hs.
  - rewrite (ServiceFacts.all_settled_idle now w Hs). exact IH.
  - rewrite (ServiceFacts.jar_all_settled now w p rest Hs). constructor. exact IH.
Qed.

(** With nothing in between, the trigger and the continuation together
    are [collectAllCookies] run from start to end. *)
Lemma cycle_without_interleaving w a now :
  suspended w = [] ->
  fst (run w [Triggered Periodic a; AllSettled now]) = collectAllCookies now a w.
Proof.
  intros Hs. destruct w as [h sv tm nt sp]. simpl in Hs. subst sp.
  unfold collectAllCookies. simpl. unfold collectAllCookies_begin. simpl.
  destruct (isCollecting sv); reflexivity.
Qed.

End Cycle.

End CycleFacts.



(** C3. The stamp is written at the end of the cycle and nowhere else:
    neither the trigger nor anything run while the cycle is parked changes
    [lastUpdated]; the continuation that runs once all three jobs have
    settled sets it to the current time whatever the three outcomes were
    (all failed included); the trace of the cycle holds exactly one such
    continuation, after which the service is idle again with nothing
    parked. *)
Theorem lastUpdated_stamped_at_cycle_end (parseURL : JsVal -> option URL)
  (closeBrowser : Browser -> Browser * Completion unit)
  (w : World) (t : Trigger) (a : Answers) (es : list Event) (now : Timestamp) :
  reachable parseURL closeBrowser w ->
  isCollecting (service w) = false ->
  no_settle es = true ->
  let w1 := fst (step parseURL closeBrowser w (Triggered t a)) in
  let w2 := fst (run parseURL closeBrowser w1 es) in
  let w3 := fst (step parseURL closeBrowser w2 (AllSettled now)) in
  lastUpdated (jar w1) = lastUpdated (jar w) /\
  lastUpdated (jar w2) = lastUpdated (jar w) /\
  lastUpdated (jar w3) = Some now /\
  completions parseURL closeBrowser w (Triggered t a :: es ++ [AllSettled now])
  = 1%nat /\
  isCollecting (service w3) = false /\ suspended w3 = [] /\
  forall later, step parseURL closeBrowser w3 (AllSettled later) = (w3, OutNone).
Proof.
  intros Hr Hb Hn w1 w2 w3.
  destruct (CycleFacts.cycle_shape parseURL closeBrowser w t a es now Hr Hb Hn)
    as (i & Hp & J1 & J2 & J3 & S3 & B3).
  fold w1 w2 w3 in Hp, J1, J2, J3, S3, B3.
  rewrite J1, J2, J3.
  repeat split; try reflexivity; try assumption.
  - change (Triggered t a :: es ++ [AllSettled now])
      with ([Triggered t a] ++ es ++ [AllSettled now]).
    rewrite !CycleFacts.completions_app.
    rewrite (CycleFacts.completions_no_settle _ _ es _ Hn).
    change (fst (run parseURL closeBrowser w [Triggered t a])) with
      (fst (let (w1, o) := step parseURL closeBrowser w (Triggered t a) in (w1, [o]))).
    replace (fst (let (w1, o) := step parseURL closeBrowser w (Triggered t a)
                  in (w1, [o]))) with w1
      by (subst w1; destruct (step parseURL closeBrowser w (Triggered t a));
          reflexivity).
    fold w2. simpl. rewrite Hp. reflexivity.
  - intros later. simpl. rewrite (ServiceFacts.all_settled_idle later w3 S3).
    reflexivity.
Qed.

Lemma lastUpdated_stamped_at_cycle_end_witness :
  let dead := {| for_animepahe := Throw "Target closed";
                 for_paheWin := Normal timeout_page;
                 for_kiwik := Normal timeout_page |} in
  let w1 := fst (step scheme_parseURL quiet_closeBrowser started_world
                   (Triggered Periodic dead)) in
  let w2 := fst (run scheme_parseURL quiet_closeBrowser w1 [GetRoot]) in
  let w3 := fst (step scheme_parseURL quiet_closeBrowser w2 (AllSettled 40%Z)) in
  lastUpdated (jar w1) = lastUpdated (jar started_world) /\
  lastUpdated (jar w2) = lastUpdated (jar started_world) /\
  lastUpdated (jar w3) = Some 40%Z /\
  completions scheme_parseURL quiet_closeBrowser started_world
    (Triggered Periodic dead :: [GetRoot] ++ [AllSettled 40%Z]) = 1%nat /\
  isCollecting (service w3) = false /\ suspended w3 = [] /\
  forall later,
    step scheme_parseURL quiet_closeBrowser w3 (AllSettled later) = (w3, OutNone).
Proof.
  exact (lastUpdated_stamped_at_cycle_end scheme_parseURL quiet_closeBrowser
           started_world Periodic
           {| for_animepahe := Throw "Target closed";
              for_paheWin := Normal timeout_page;
              for_kiwik := Normal timeout_page |}
           [GetRoot] 40%Z
           (ServiceFacts.reachable_run _ _ _ _ (reachable_new _ _))
           eq_refl eq_refl).
Defined.

(* ===================================================================== *)
(** ** Snapshots *)
(* ===================================================================== *)

(** C6, as stated, fails for [getCookies]: what it returns is the live jar,
    and the next cycle rewrites it under whoever still holds it. *)
Lemma getCookies_snapshot_is_altered :
  let snapshot := getCookies started_world in
  let later :=
    fst (run scheme_parseURL quiet_closeBrowser started_world
           [Triggered (Manual 20%Z) second_answers; AllSettled 30%Z]) in
  deref started_world snapshot
  = {| animepahe := Some "sid=1"; paheWin := None; kiwik := Some "k=v";
       lastUpdated := Some 10%Z |} /\
  deref later snapshot
  = {| animepahe := Some "sid=2"; paheWin := None; kiwik := Some "k=v";
       lastUpdated := Some 30%Z |} /\
  deref later snapshot <> deref started_world snapshot.
Proof.
  split; [vm_compute; reflexivity |]. split; [vm_compute; reflexivity |].
  vm_compute. discriminate.
Qed.

(** The jar after a trace is the jar before it with the cycles completed
    along the trace applied, each as a whole. *)
Lemma jar_after_trace (parseURL : JsVal -> option URL)
  (closeBrowser : Browser -> Browser * Completion unit) (es : list Event) (w : World) :
  jar (fst (run parseURL closeBrowser w es))
  = apply_cycles (completed parseURL closeBrowser w es) (jar w).
Proof.
  revert w. induction es as [| e es IH]; intros w; [reflexivity |].
  assert (fst (run parseURL closeBrowser w (e :: es))
          = fst (run parseURL closeBrowser (fst (step parseURL closeBrowser w e)) es))
    as ->.
  { simpl. destruct (step parseURL closeBrowser w e) as [w1 o]. simpl.
    destruct (run parseURL closeBrowser w1 es). reflexivity. }
  rewrite IH. unfold apply_cycles. simpl completed. rewrite fold_left_app.
  f_equal.
  destruct e as [t a | now | | | now answer reqBody |];
    try (cbn [fold_left app];
         match goal with
         | |- jar (fst (Routes.step _ _ _ ?e)) = _ =>
             exact (ServiceFacts.step_jar parseURL closeBrowser w e I)
         end).
  destruct (suspended w) as [| p rest] eqn:Hs; cbn [fold_left app fst snd].
  - change (jar (all_settled now w) = jar w).
    rewrite (ServiceFacts.all_settled_idle now w Hs). reflexivity.
  - exact (ServiceFacts.jar_all_settled now w p rest Hs).
Qed.

(** C6 (amended). What the [GET /] route sends is a copy taken at one
    instant of a store that is never partly merged: after any trace, the jar
    is exactly the earlier jar with the cycles that ran to their end along
    the trace applied whole and in order, each with the outcomes its own
    three jobs had and its own instant, and the body sent is the body of
    that jar.  [getCookies] itself hands out the live jar: read through it
    at any later state, it shows the jar of that later state. *)
Theorem root_response_is_whole_cycle_copy (parseURL : JsVal -> option URL)
  (closeBrowser : Browser -> Browser * Completion unit)
  (w : World) (es : list Event) :
  let later := fst (run parseURL closeBrowser w es) in
  jar later = apply_cycles (completed parseURL closeBrowser w es) (jar w) /\
  snd (step parseURL closeBrowser later GetRoot)
  = OutResponse
      (root_body (apply_cycles (completed parseURL closeBrowser w es) (jar w))) /\
  deref later (getCookies w) = jar later.
Proof.
  intros later. pose proof (jar_after_trace parseURL closeBrowser es w) as Hj.
  fold later in Hj. split; [exact Hj |]. split.
  - rewrite <- Hj. reflexivity.
  - unfold jar, getCookies. subst later. rewrite ServiceFacts.run_cookies.
    reflexivity.
Qed.

(** C10. Until a first collection cycle has run to its end the [GET /]
    route answers 503 with the "not yet collected" body, never an empty
    snapshot; once a cycle has ended it answers 200 with the records and the
    stamp. *)
Theorem not_collected_until_first_cycle (parseURL : JsVal -> option URL)
  (closeBrowser : Browser -> Browser * Completion unit) (es : list Event) :
  let w := fst (run parseURL closeBrowser new_world es) in
  match completions parseURL closeBrowser new_world es with
  | O =>
      lastUpdated (jar w) = None /\
      get_root w
      = json 503 (NotCollectedBody
                    "Cookies not yet collected. Please try again in a few moments."
                    "collecting")
  | S _ =>
      exists updated,
        lastUpdated (jar w) = Some updated /\
        get_root w
        = json 200 (CookiesBody (animepahe (jar w)) (paheWin (jar w))
                      (kiwik (jar w)) updated)
  end.
Proof.
  intros w. pose proof (CycleFacts.lastUpdated_run parseURL closeBrowser es new_world)
    as H.
  fold w in H. unfold get_root. change (deref w (getCookies w)) with (jar w).
  destruct (completions parseURL closeBrowser new_world es).
  - rewrite H. split; reflexivity.
  - destruct H as [updated Hu]. exists updated. rewrite Hu. split; reflexivity.
Qed.

(* ===================================================================== *)
(** ** The [/create] route and shutdown *)
(* ===================================================================== *)

(** C7. A [/create] request whose URL string does not parse as an absolute
    URL, or parses with a protocol other than ["https:"], is answered with a
    400 error before any browser work: no page call is made, and the world
    (store, flag, everything) is left as it was. *)
Theorem create_rejects_non_https (parseURL : JsVal -> option URL)
  (closeBrowser : Browser -> Browser * Completion unit)
  (now : Timestamp) (answer : Completion Page) (reqBody : JsVal) (url : string)
  (w : World) :
  get reqBody "url" = Normal (JStr url) ->
  absolute_https parseURL (JStr url) = false ->
  exists message,
    step parseURL closeBrowser w (PostCreate now answer reqBody)
    = (w, OutCreate [] (json 400 (ErrorBody message))).
Proof.
  intros Hurl Hbad. unfold absolute_https in Hbad. simpl.
  unfold post_create. rewrite Hurl.
  assert (exists given, get reqBody "options" = Normal given) as [given ->]
    by (destruct reqBody; try discriminate; eexists; reflexivity).
  destruct (truthy (JStr url)); simpl; [| eexists; reflexivity].
  unfold isValidUrl.
  destruct (parseURL (JStr url)) as [parsedUrl |]; simpl; [| eexists; reflexivity].
  rewrite Hbad. simpl. eexists; reflexivity.
Qed.

Lemma create_rejects_non_https_witness :
  exists message,
    step scheme_parseURL quiet_closeBrowser started_world
      (PostCreate 50%Z (Normal (good_page "Example Domain" [])) http_request)
    = (started_world, OutCreate [] (json 400 (ErrorBody message))).
Proof.
  exact (create_rejects_non_https scheme_parseURL quiet_closeBrowser 50%Z
           (Normal (good_page "Example Domain" [])) http_request
           "http://example.com" started_world eq_refl eq_refl).
Defined.




(* ===================================================================== *)
(** * Further properties of the visits *)
(* ===================================================================== *)

Module VisitFacts.

Lemma snd_bind_normal {A B} (m : Task A) (k : A -> Task B) (b : B) :
  snd (bind m k) = Normal b ->
  exists a, snd m = Normal a /\ snd (k a) = Normal b.
Proof.
  destruct m as [log [a | e]]; simpl; [| discriminate].
  intros H. exists a. split; [reflexivity |]. destruct (k a); exact H.
Qed.

(** A [try]/[catch]/[finally] whose handler returns a value: the statement
    throws only when the closing call does. *)
Lemma snd_try_finally {A} (body : Task A) (h : string -> A) (c : Completion unit) :
  snd (try_catch_finally body (fun e => ret (h e)) (call Close c))
  = match c with
    | Throw e => Throw e
    | Normal _ => Normal match snd body with Normal a => a | Throw e => h e end
    end.
Proof. destruct body as [log [a | e]], c; reflexivity. Qed.

Lemma snd_newPage_bind {A} (page : Page) (work : Page -> Task A) :
  snd (bind (newPage true (Normal page)) work) = snd (work page).
Proof. unfold newPage, call, bind. destruct (work page); reflexivity. Qed.

Lemma append_empty (a b : string) : (a ++ b)%string = "" -> a = "".
Proof. destruct a; [reflexivity | discriminate]. Qed.

Lemma concat_nonempty (sep x : string) (rest : list string) :
  x <> "" -> String.concat sep (x :: rest) <> "".
Proof.
  intros Hx H. destruct rest; simpl in H; [exact (Hx H) |].
  apply append_empty in H. exact (Hx H).
Qed.

Lemma prefix_append (needle post : string) : String.prefix needle (needle ++ post) = true.
Proof.
  induction needle as [| c needle IH]; simpl; [destruct post; reflexivity |].
  destruct (Ascii.ascii_dec c c); [exact IH | contradiction].
Qed.

Lemma includes_prefix (hay needle : string) :
  String.prefix needle hay = true -> includes hay needle = true.
Proof.
  intros H. destruct hay as [| c hay].
  - change (String.prefix needle "" || false = true). rewrite H. reflexivity.
  - change (String.prefix needle (String c hay) || includes hay needle = true).
    rewrite H. reflexivity.
Qed.

(** [includes] finds a needle wherever it stands. *)
Lemma includes_infix (pre needle post : string) :
  includes (pre ++ needle ++ post) needle = true.
Proof.
  induction pre as [| c pre IH]; simpl.
  - apply includes_prefix. exact (prefix_append needle post).
  - rewrite IH. apply orb_true_r.
Qed.

(** Once the page is open, a custom visit throws only when the closing call
    does, and otherwise returns a success built from the page's cookies or a
    failure. *)
Lemma custom_outcome (now : Timestamp) (page : Page) (url options : JsVal) :
  match on_close page with
  | Throw e => snd (visitCustomUrl true (Normal page) now url options) = Throw e
  | Normal _ =>
      (exists cookies,
         on_cookies page = Normal cookies /\
         snd (visitCustomUrl true (Normal page) now url options)
         = Normal (VisitSuccess (cookieString cookies) (length cookies) url now))
      \/ (exists e,
            snd (visitCustomUrl true (Normal page) now url options)
            = Normal (VisitFailure e url now))
  end.
Proof.
  unfold visitCustomUrl. rewrite snd_newPage_bind.
  rewrite snd_try_finally.
  destruct (on_close page) as [[] | e]; [| reflexivity].
  match goal with
  | |- context [match snd ?b with Normal a => a | Throw e => _ end] =>
      destruct (snd b) as [r | e] eqn:Hbody
  end; [left | right; eexists; reflexivity].
  repeat match goal with
         | H : snd (bind _ _) = Normal _ |- _ =>
             apply snd_bind_normal in H; destruct H as [? [? H]]
         end.
  simpl in Hbody.
  match goal with
  | Hc : snd (call Cookies (on_cookies page)) = Normal ?cs |- _ =>
      exists cs; split; [exact Hc | congruence]
  end.
Qed.

End VisitFacts.

(** X1. How a built-in visit settles.  It rejects when [this.browser] is
    still [null], when [newPage] rejects, and when closing the page rejects
    (even if the cookies had been read); otherwise it fulfils, with the
    cookie string when the four calls inside the [try] all resolved and with
    [null] as soon as one of them threw. *)
Theorem builtin_visit_outcome (site : string) (has_browser : bool)
  (answer : Completion Page) :
  settle (visitSite site has_browser answer)
  = (if has_browser then
       match answer with
       | Throw e => Rejected e
       | Normal page =>
           match on_close page with
           | Throw e => Rejected e
           | Normal _ => Fulfilled (builtin_outcome site page)
           end
       end
     else Rejected "TypeError: Cannot read properties of null (reading 'newPage')").
Proof.
  destruct has_browser; [| reflexivity].
  destruct answer as [page | e]; [| reflexivity].
  unfold visitSite, builtin_outcome, settle, try_catch_finally, newPage, call,
    sleep, when, bind, ret.
  destruct (on_setUserAgent page userAgent) as [[] | e1]; simpl;
    [| destruct (on_close page); reflexivity].
  destruct (on_goto page (JStr site) (JStr "networkidle2") (JNum 60000))
    as [[] | e2]; simpl; [| destruct (on_close page); reflexivity].
  destruct (on_title page) as [title | e3]; simpl;
    [| destruct (on_close page); reflexivity].
  destruct (challenge_title title); simpl;
    destruct (on_cookies page) as [cs | e4]; simpl;
    destruct (on_close page); reflexivity.
Qed.

(** X2. How a custom visit ends once its page is open.  It throws only when
    closing the page throws.  Otherwise it returns a result carrying the
    requested URL and the current time: a success whose cookie string and
    count are those of the cookies the page returned, or a failure with an
    error message. *)
Theorem custom_visit_outcome (now : Timestamp) (page : Page) (url options : JsVal) :
  match on_close page with
  | Throw e => snd (visitCustomUrl true (Normal page) now url options) = Throw e
  | Normal _ =>
      (exists cookies,
         on_cookies page = Normal cookies /\
         snd (visitCustomUrl true (Normal page) now url options)
         = Normal (VisitSuccess (cookieString cookies) (length cookies) url now))
      \/ (exists e,
            snd (visitCustomUrl true (Normal page) now url options)
            = Normal (VisitFailure e url now))
  end.
Proof. exact (VisitFacts.custom_outcome now page url options). Qed.

(** X3. A built-in visit is the custom visit of the same address with an
    empty options object: the two make the same page calls in the same
    order, and the built-in one resolves with the [cookies] field of the
    custom result ([null] for a failure). *)
Theorem builtin_is_custom_default (site : string) (has_browser : bool)
  (answer : Completion Page) (now : Timestamp) :
  fst (visitSite site has_browser answer)
  = fst (visitCustomUrl has_browser answer now (JStr site) (JObj [])) /\
  snd (visitSite site has_browser answer)
  = map_completion cookies_of
      (snd (visitCustomUrl has_browser answer now (JStr site) (JObj []))).
Proof.
  destruct has_browser; [| split; reflexivity].
  destruct answer as [page | e]; [| split; reflexivity].
  cbv beta iota zeta delta [visitSite visitCustomUrl try_catch_finally newPage
    call sleep when bind ret or_else opt get assoc truthy].
  destruct (on_setUserAgent page userAgent) as [[] | e1]; simpl;
    [| destruct (on_close page); split; reflexivity].
  destruct (on_goto page (JStr site) (JStr "networkidle2") (JNum 60000))
    as [[] | e2]; simpl; [| destruct (on_close page); split; reflexivity].
  destruct (on_title page) as [title | e3]; simpl;
    [| destruct (on_close page); split; reflexivity].
  destruct (challenge_title title); simpl;
    destruct (on_cookies page) as [cs | e4]; simpl;
    destruct (on_close page); split; reflexivity.
Qed.

(** X4. The cookie string is empty exactly when the page returned no cookie
    at all; hence a visit that read at least one cookie always yields a value
    that [collectAllCookies] stores, and a visit that read none yields one it
    skips. *)
Theorem cookieString_empty_iff_no_cookie (cookies : list Cookie) :
  String.eqb (cookieString cookies) "" = match cookies with [] => true | _ => false end /\
  fulfilled_value (Fulfilled (Some (cookieString cookies)))
  = match cookies with [] => None | _ => Some (cookieString cookies) end.
Proof.
  destruct cookies as [| c rest]; [split; reflexivity |].
  assert (cookieString (c :: rest) <> "") as Hne.
  { unfold cookieString, join. simpl map. apply VisitFacts.concat_nonempty.
    intros H. destruct (name c); simpl in H; discriminate. }
  apply (proj2 (String.eqb_neq _ _)) in Hne. simpl fulfilled_value. rewrite Hne.
  split; reflexivity.
Qed.

(** X5. The challenge heuristic: a title that contains ["Just a moment"] or
    ["Cloudflare"] anywhere is taken for a challenge page, and a built-in
    visit on which every call resolves waits 5000 ms, and 10000 ms more
    exactly when the title is taken for a challenge, before reading the
    cookies. *)
Theorem challenge_title_adds_one_wait (site title pre post : string)
  (cloudflare : bool) (cookies : list Cookie) :
  challenge_title (pre ++ marker cloudflare ++ post) = true /\
  visitSite site true (Normal (good_page title cookies))
  = (builtin_log site (challenge_title title), Normal (Some (cookieString cookies))).
Proof.
  split.
  - unfold challenge_title, marker. destruct cloudflare;
      rewrite VisitFacts.includes_infix; [apply orb_true_r | reflexivity].
  - unfold visitSite, builtin_log, try_catch_finally, newPage, call, sleep, when,
      bind, ret. simpl. destruct (challenge_title title); reflexivity.
Qed.

(* ===================================================================== *)
(** * Further properties of option validation and of [/create] *)
(* ===================================================================== *)

Module CreateFacts.

Lemma nonzero_nonneg_positive (q : Q) :
  Qeq_bool q 0 = false -> num_le 0 q = true -> num_lt 0 q = true.
Proof.
  unfold num_le, num_lt. intros Hz Hle.
  destruct (Qle_bool q 0) eqn:E; [| reflexivity].
  apply Qle_bool_iff in E. apply Qle_bool_iff in Hle.
  assert (Qeq_bool q 0 = true) as Heq
    by (apply Qeq_bool_iff, Qle_antisym; assumption).
  congruence.
Qed.

(** A value that passes the route's test for a wait is a positive number
    within the bound. *)
Lemma wait_test_range (high : Q) v :
  truthy v && String.eqb (typeof v) "number" && js_ge v 0 && js_le v high = true ->
  truthy v = true /\ number_within true 0 high v = true.
Proof.
  destruct v as [| | b | q | s | l | l]; simpl;
    try discriminate; try (rewrite ?andb_false_r; discriminate).
  intros H. repeat (apply andb_prop in H; destruct H as [H ?]).
  split; [exact H |]. apply negb_true_iff in H.
  rewrite (nonzero_nonneg_positive q H) by assumption. assumption.
Qed.

Lemma timeout_test_range v :
  truthy v && String.eqb (typeof v) "number" && js_gt v 0 && js_le v 120000 = true ->
  truthy v = true /\ number_within true 0 120000 v = true.
Proof.
  destruct v as [| | b | q | s | l | l]; simpl;
    try discriminate; try (rewrite ?andb_false_r; discriminate).
  intros H. repeat (apply andb_prop in H; destruct H as [H ?]).
  split; [exact H |]. apply andb_true_intro. split; assumption.
Qed.

(** Logs all of whose calls satisfy [P]. *)
Lemma all_bind {A B} (P : PageEvent -> bool) (m : Task A) (k : A -> Task B) :
  forallb P (fst m) = true -> (forall a, forallb P (fst (k a)) = true) ->
  forallb P (fst (bind m k)) = true.
Proof.
  intros Hm Hk. destruct m as [log [a | e]]; simpl in *; [| exact Hm].
  specialize (Hk a). destruct (k a) as [log' c]. simpl in *.
  rewrite forallb_app, Hm, Hk. reflexivity.
Qed.

Lemma all_try {A} (P : PageEvent -> bool) (body : Task A)
  (handler : string -> Task A) (fin : Task unit) :
  forallb P (fst body) = true -> (forall e, forallb P (fst (handler e)) = true) ->
  forallb P (fst fin) = true ->
  forallb P (fst (try_catch_finally body handler fin)) = true.
Proof.
  intros Hb Hh Hf. unfold try_catch_finally.
  destruct body as [log [a | e]], fin as [flog [[] | fe]]; simpl in *;
    try (rewrite forallb_app, Hb, Hf; reflexivity);
    specialize (Hh e); destruct (handler e) as [log' c]; simpl in *;
    rewrite !forallb_app, Hb, Hh, Hf; reflexivity.
Qed.

Lemma all_when (P : PageEvent -> bool) (c : bool) (t : Task unit) :
  (c = true -> forallb P (fst t) = true) -> forallb P (fst (when c t)) = true.
Proof. destruct c; simpl; auto. Qed.

(** A visit whose options carry no script makes no [evaluate] call. *)
Lemma visit_without_script has_browser answer now url options :
  truthy (opt options "executeScript") = false ->
  forallb (fun ev => negb (is_evaluate ev))
    (fst (visitCustomUrl has_browser answer now url options)) = true.
Proof.
  intros Hs.
  assert (truthy (opt (defaulted options) "executeScript") = false) as Hs'
    by (destruct options; exact Hs).
  unfold visitCustomUrl. cbv zeta. apply all_bind.
  { unfold newPage. destruct has_browser; reflexivity. }
  intros page. apply all_try; [| reflexivity | reflexivity].
  repeat first
    [ apply all_bind; [| intros ?]
    | apply all_when; intros ?
    | reflexivity
    | congruence ].
Qed.

(** Only the seven copied properties can be present in the validated
    object. *)
Lemma only_copied_keys (raw : JsVal) (k : string) :
  existsb (String.eqb k) copied_keys = false ->
  opt (validateOptions raw) k = JUndefined.
Proof.
  intros Hk. simpl in Hk.
  repeat (apply orb_false_elim in Hk; destruct Hk as [? Hk]).
  unfold validateOptions, copy_if.
  generalize (opt raw "timeout") (opt raw "waitUntil") (opt raw "initialWait")
    (opt raw "cloudflareWait") (opt raw "additionalWait") (opt raw "headers")
    (opt raw "viewport").
  intros v1 v2 v3 v4 v5 v6 v7.
  repeat match goal with
         | |- context [if ?c then set _ _ _ else _] => destruct c
         end;
    simpl; unfold opt, get; cbn [assoc];
    repeat match goal with
           | H : String.eqb k _ = false |- _ => rewrite H; clear H
           end;
    reflexivity.
Qed.

(** Two conditional copies agree when their tests agree and, where the test
    passes, the copied values do. *)
Lemma copy_if_ext (c c' : bool) (k : string) (o o' vo vo' : JsVal) :
  c = c' -> (c' = true -> opt o k = opt o' k) -> vo = vo' ->
  copy_if c k o vo = copy_if c' k o' vo'.
Proof.
  intros -> Hv ->. unfold copy_if. destruct c'; [| reflexivity].
  rewrite (Hv eq_refl). reflexivity.
Qed.

End CreateFacts.

(** X6. Whatever options a [/create] request carries, the visit runs with a
    navigation timeout in (0, 120000], one of the four completion modes, an
    initial wait in (0, 30000], a challenge wait in (0, 60000] and, when
    there is one, an additional wait in (0, 30000]. *)
Theorem validated_config_is_bounded (raw : JsVal) :
  number_within true 0 120000 (timeoutMs (validate raw)) = true /\
  includes_lit waitUntilModes (waitUntilMode (validate raw)) = true /\
  number_within true 0 30000 (initialWaitMs (validate raw)) = true /\
  number_within true 0 60000 (challengeWaitMs (validate raw)) = true /\
  match additionalWaitMs (validate raw) with
  | Some v => number_within true 0 30000 v
  | None => true
  end = true.
Proof.
  destruct (ValidatorFacts.opt_validateOptions raw)
    as (H1 & H2 & H3 & H4 & H5 & _ & _).
  unfold validate, jobConfig, if_truthy, or_else.
  cbn [timeoutMs waitUntilMode initialWaitMs challengeWaitMs additionalWaitMs].
  rewrite H1, H2, H3, H4, H5. clear H1 H2 H3 H4 H5.
  repeat split.
  - destruct (truthy (opt raw "timeout") && _ && _ && _) eqn:E; cbv iota; [| reflexivity].
    destruct (CreateFacts.timeout_test_range _ E) as [-> ->]. reflexivity.
  - destruct (truthy (opt raw "waitUntil") && _) eqn:E; cbv iota; [| reflexivity].
    apply andb_prop in E. destruct E as [-> ->]. reflexivity.
  - destruct (truthy (opt raw "initialWait") && _ && _ && _) eqn:E; cbv iota; [| reflexivity].
    destruct (CreateFacts.wait_test_range _ _ E) as [-> ->]. reflexivity.
  - destruct (truthy (opt raw "cloudflareWait") && _ && _ && _) eqn:E; cbv iota; [| reflexivity].
    destruct (CreateFacts.wait_test_range _ _ E) as [-> ->]. reflexivity.
  - destruct (truthy (opt raw "additionalWait") && _ && _ && _) eqn:E; cbv iota; [| reflexivity].
    destruct (CreateFacts.wait_test_range _ _ E) as [-> ->]. reflexivity.
Qed.

(** X7. Validation is a whitelist: a property of the request's options
    other than the seven the route copies never reaches the visit. *)
Theorem validateOptions_whitelist (raw : JsVal) (k : string) :
  existsb (String.eqb k) copied_keys = false ->
  opt (validateOptions raw) k = JUndefined.
Proof. exact (CreateFacts.only_copied_keys raw k). Qed.

Lemma validateOptions_whitelist_witness :
  opt (validateOptions
         (JObj [("executeScript", JStr "document.cookie"); ("timeout", JNum 1000)]))
    "executeScript" = JUndefined.
Proof.
  exact (validateOptions_whitelist
           (JObj [("executeScript", JStr "document.cookie"); ("timeout", JNum 1000)])
           "executeScript" eq_refl).
Defined.

(** X8. The [/create] route never evaluates a script in the page: whatever
    the request, no [evaluate] call appears among the page calls it makes. *)
Theorem create_never_evaluates (parseURL : JsVal -> option URL)
  (now : Timestamp) (answer : Completion Page) (reqBody : JsVal) (w : World) :
  forallb (fun ev => negb (is_evaluate ev))
    (fst (post_create parseURL now answer reqBody w)) = true.
Proof.
  unfold post_create.
  destruct (get reqBody "url") as [url |]; [| reflexivity].
  destruct (get reqBody "options") as [given |]; [| reflexivity].
  destruct (negb (truthy url)); [reflexivity |].
  destruct (negb (isValidUrl parseURL url)); [reflexivity |].
  destruct (parseURL url) as [parsedUrl |]; [| reflexivity].
  destruct (negb (String.eqb (protocol parsedUrl) "https:")); [reflexivity |].
  destruct (isCollecting (service w)); [reflexivity |].
  cbv zeta. unfold validated, respond.
  destruct (get (defaulted given) "timeout"); [| reflexivity].
  match goal with
  | |- context [visitCustomUrl ?hb ?ans ?t ?u ?o] =>
      pose proof (CreateFacts.visit_without_script hb ans t u o) as Hv;
      destruct (visitCustomUrl hb ans t u o) as [log [[c n u' t' | e u' t'] | e]]
  end; simpl in *; apply Hv;
    rewrite (CreateFacts.only_copied_keys _ "executeScript" eq_refl); reflexivity.
Qed.

(** X9. While a collection cycle is running, a [/create] request with a
    well-formed https URL is turned away with 429 and opens no page. *)
Theorem create_busy_while_collecting (parseURL : JsVal -> option URL)
  (now : Timestamp) (answer : Completion Page) (reqBody url : JsVal) (w : World) :
  get reqBody "url" = Normal url ->
  truthy url = true ->
  absolute_https parseURL url = true ->
  isCollecting (service w) = true ->
  post_create parseURL now answer reqBody w
  = ([], json 429 (ErrorBody "Service is busy, please try again later")).
Proof.
  intros Hurl Ht Hs Hb. unfold absolute_https in Hs. unfold post_create, isValidUrl.
  rewrite Hurl.
  assert (exists given, get reqBody "options" = Normal given) as [given ->]
    by (destruct reqBody; try discriminate; eexists; reflexivity).
  rewrite Ht. simpl. destruct (parseURL url) as [parsedUrl |]; [| discriminate].
  simpl. rewrite Hs, Hb. reflexivity.
Qed.

Lemma create_busy_while_collecting_witness :
  post_create scheme_parseURL 50%Z (Normal (good_page "Example Domain" []))
    zero_waits_request
    (fst (step scheme_parseURL quiet_closeBrowser started_world
            (Triggered Periodic second_answers)))
  = ([], json 429 (ErrorBody "Service is busy, please try again later")).
Proof.
  exact (create_busy_while_collecting scheme_parseURL 50%Z
           (Normal (good_page "Example Domain" [])) zero_waits_request
           (JStr "https://example.com")
           (fst (step scheme_parseURL quiet_closeBrowser started_world
                   (Triggered Periodic second_answers)))
           eq_refl eq_refl eq_refl eq_refl).
Defined.

(** X10. A [/create] request whose [options] property is [null] passes the
    URL checks and then fails inside validation: the route answers 500
    "Internal server error" and opens no page. *)
Theorem create_null_options_is_500 (parseURL : JsVal -> option URL)
  (now : Timestamp) (answer : Completion Page) (reqBody url : JsVal) (w : World) :
  get reqBody "url" = Normal url ->
  get reqBody "options" = Normal JNull ->
  truthy url = true ->
  absolute_https parseURL url = true ->
  isCollecting (service w) = false ->
  post_create parseURL now answer reqBody w
  = ([], json 500 (ErrorBody "Internal server error")).
Proof.
  intros Hurl Hopt Ht Hs Hb. unfold absolute_https in Hs.
  unfold post_create, isValidUrl. rewrite Hurl, Hopt, Ht. simpl.
  destruct (parseURL url) as [parsedUrl |]; [| discriminate].
  simpl. rewrite Hs, Hb. reflexivity.
Qed.

Lemma create_null_options_is_500_witness :
  post_create scheme_parseURL 50%Z (Normal (good_page "Example Domain" []))
    (JObj [("url", JStr "https://example.com"); ("options", JNull)]) started_world
  = ([], json 500 (ErrorBody "Internal server error")).
Proof.
  exact (create_null_options_is_500 scheme_parseURL 50%Z
           (Normal (good_page "Example Domain" []))
           (JObj [("url", JStr "https://example.com"); ("options", JNull)])
           (JStr "https://example.com") started_world
           eq_refl eq_refl eq_refl eq_refl eq_refl).
Defined.

(** X11. When the service is idle and the browser hands out a page that
    closes cleanly, a [/create] request with a well-formed https URL and
    options other than [null] is answered 200 with the cookie string and
    count of the cookies the page returned, or 400 with the error of the
    failed visit; it is never answered 500. *)
Theorem create_answers_200_or_400 (parseURL : JsVal -> option URL)
  (now : Timestamp) (page : Page) (reqBody url given : JsVal) (b : Browser)
  (w : World) :
  get reqBody "url" = Normal url ->
  get reqBody "options" = Normal given ->
  given <> JNull ->
  truthy url = true ->
  absolute_https parseURL url = true ->
  isCollecting (service w) = false ->
  browser (service w) = Some b ->
  on_close page = Normal tt ->
  (exists cookies,
     on_cookies page = Normal cookies /\
     snd (post_create parseURL now (Normal page) reqBody w)
     = json 200 (CreatedBody (cookieString cookies) (length cookies) url now))
  \/ (exists e,
        snd (post_create parseURL now (Normal page) reqBody w)
        = json 400 (CreateFailedBody e url now)).
Proof.
  intros Hurl Hopt Hnn Ht Hs Hb Hbr Hclose. unfold absolute_https in Hs.
  unfold post_create, isValidUrl. rewrite Hurl, Hopt, Ht. simpl.
  destruct (parseURL url) as [parsedUrl |]; [| discriminate].
  simpl. rewrite Hs, Hb, Hbr. simpl.
  assert (exists v, get (defaulted given) "timeout" = Normal v) as [v Hv0].
  { destruct given; try (eexists; reflexivity). exfalso. apply Hnn. reflexivity. }
  unfold validated, respond. rewrite Hv0.
  match goal with
  | |- context [visitCustomUrl true (Normal page) now url ?o] =>
      pose proof (VisitFacts.custom_outcome now page url o) as Hv
  end.
  rewrite Hclose in Hv.
  destruct Hv as [[cookies [Hc Hv]] | [e Hv]];
    destruct (visitCustomUrl _ _ _ _ _) as [log c]; simpl in Hv; subst c; simpl.
  - left. exists cookies. split; [exact Hc | reflexivity].
  - right. exists e. reflexivity.
Qed.

Lemma create_answers_200_or_400_witness :
  (exists cookies,
     on_cookies (good_page "Example Domain" [{| name := "a"; value := "b" |}])
     = Normal cookies /\
     snd (post_create scheme_parseURL 50%Z
            (Normal (good_page "Example Domain" [{| name := "a"; value := "b" |}]))
            zero_waits_request started_world)
     = json 200 (CreatedBody (cookieString cookies) (length cookies)
                   (JStr "https://example.com") 50%Z))
  \/ (exists e,
        snd (post_create scheme_parseURL 50%Z
               (Normal (good_page "Example Domain" [{| name := "a"; value := "b" |}]))
               zero_waits_request started_world)
        = json 400 (CreateFailedBody e (JStr "https://example.com") 50%Z)).
Proof.
  exact (create_answers_200_or_400 scheme_parseURL 50%Z
           (good_page "Example Domain" [{| name := "a"; value := "b" |}])
           zero_waits_request (JStr "https://example.com") zero_waits_raw
           {| connected := true |} started_world
           eq_refl eq_refl ltac:(discriminate) eq_refl eq_refl eq_refl eq_refl
           eq_refl).
Defined.

(* ===================================================================== *)
(** * Further properties of the store and of the lifecycle *)
(* ===================================================================== *)

Module StoreFacts.

Lemma fulfilled_value_nonempty r : fulfilled_value r <> Some "".
Proof.
  destruct r as [[s |] | e]; simpl; try discriminate.
  destruct (String.eqb s "") eqn:E; [discriminate |].
  intros H. injection H as ->. discriminate.
Qed.

Lemma record_of_cycle_effect site now p j :
  record_of site (cycle_effect now p j)
  = keep_or (fulfilled_value (result_of site p)) (record_of site j).
Proof. destruct site; reflexivity. Qed.

Lemma whole_cycles_no_empty j : whole_cycles j -> no_empty_record j.
Proof.
  induction 1 as [| now p j _ IH]; intros site.
  - destruct site; discriminate.
  - rewrite record_of_cycle_effect.
    pose proof (fulfilled_value_nonempty (result_of site p)) as Hf.
    destruct (fulfilled_value (result_of site p)); [exact Hf | apply IH].
Qed.

Lemma whole_cycles_unstamped j :
  whole_cycles j -> lastUpdated j = None -> j = empty_jar.
Proof. destruct 1; [reflexivity | discriminate]. Qed.

Lemma has_value_is_some v : v <> Some "" -> has_value v = is_some v.
Proof.
  destruct v as [s |]; [| reflexivity]. simpl. intros H.
  destruct (String.eqb s "") eqn:E; [| reflexivity].
  apply String.eqb_eq in E. subst s. contradiction.
Qed.

Lemma last_cons {A} (x d : A) (l : list A) : List.last (x :: l) d = List.last l x.
Proof.
  revert x d. induction l as [| y l IH]; intros x d; [reflexivity |].
  change (List.last (x :: y :: l) d) with (List.last (y :: l) d).
  rewrite (IH y d), (IH y x). reflexivity.
Qed.

Lemma timers_resume now p w : timers (collectAllCookies_resume now p w) = timers w.
Proof.
  unfold collectAllCookies_resume. simpl.
  destruct (fulfilled_value (animepaheResult p)),
    (fulfilled_value (paheWinResult p)), (fulfilled_value (kiwikResult p));
    reflexivity.
Qed.

Lemma next_timer_resume now p w :
  next_timer (collectAllCookies_resume now p w) = next_timer w.
Proof.
  unfold collectAllCookies_resume. simpl.
  destruct (fulfilled_value (animepaheResult p)),
    (fulfilled_value (paheWinResult p)), (fulfilled_value (kiwikResult p));
    reflexivity.
Qed.

Section Loop.

Variable parseURL : JsVal -> option URL.
Variable closeBrowser : Browser -> Browser * Completion unit.

#[local] Abbreviation step := (step parseURL closeBrowser).
#[local] Abbreviation run := (run parseURL closeBrowser).
#[local] Abbreviation stamps := (stamps parseURL closeBrowser).
#[local] Abbreviation completions := (completions parseURL closeBrowser).

(** What a step does to the jar: nothing, or one whole cycle. *)
Lemma jar_step w e :
  jar (fst (step w e))
  = match e, suspended w with
    | AllSettled now, p :: _ => cycle_effect now p (jar w)
    | _, _ => jar w
    end.
Proof.
  destruct e as [t a | now | | | now answer reqBody |];
    try (apply ServiceFacts.step_jar; exact I).
  simpl. destruct (suspended w) as [| p rest] eqn:Hs.
  - rewrite (ServiceFacts.all_settled_idle now w Hs). reflexivity.
  - apply (ServiceFacts.jar_all_settled now w p rest Hs).
Qed.

Lemma run_cons w e es :
  fst (run w (e :: es)) = fst (run (fst (step w e)) es).
Proof.
  simpl. destruct (step w e) as [w1 o]. simpl. destruct (run w1 es). reflexivity.
Qed.

Lemma record_kept_by_step w e site :
  is_some (record_of site (jar w)) = true ->
  is_some (record_of site (jar (fst (step w e)))) = true.
Proof.
  intros H. rewrite jar_step.
  destruct e as [t a | now | | | now answer reqBody |]; try exact H.
  destruct (suspended w) as [| p rest]; [exact H |].
  rewrite record_of_cycle_effect.
  destruct (fulfilled_value (result_of site p)); [reflexivity | exact H].
Qed.

Lemma record_kept_by_run es w site :
  is_some (record_of site (jar w)) = true ->
  is_some (record_of site (jar (fst (run w es)))) = true.
Proof.
  revert w. induction es as [| e es IH]; intros w H; [exact H |].
  rewrite run_cons. apply IH, record_kept_by_step, H.
Qed.

Lemma stamp_of_run es w :
  lastUpdated (jar (fst (run w es)))
  = List.last (map Some (stamps w es)) (lastUpdated (jar w)) /\
  length (stamps w es) = completions w es.
Proof.
  revert w. induction es as [| e es IH]; intros w; [split; reflexivity |].
  rewrite run_cons. destruct (IH (fst (step w e))) as [IH1 IH2].
  rewrite IH1. simpl stamps. simpl completions. rewrite jar_step.
  destruct e as [t a | now | | | now answer reqBody |];
    try (split; [reflexivity | exact IH2]).
  destruct (suspended w) as [| p rest]; [split; [reflexivity | exact IH2] |].
  split; [| exact (f_equal S IH2)].
  simpl map. rewrite last_cons. reflexivity.
Qed.

End Loop.

End StoreFacts.

(** X12. In every reachable state no site holds an empty cookie string, so
    the [hasCookies] flags of the [/status] route say exactly which sites
    have a record (the ones [GET /] reports as non-null). *)
Theorem store_holds_no_empty_string (parseURL : JsVal -> option URL)
  (closeBrowser : Browser -> Browser * Completion unit) (w : World) :
  reachable parseURL closeBrowser w ->
  no_empty_record (jar w) /\
  get_status w
  = json 200 (StatusBody (isCollecting (service w)) (lastUpdated (jar w))
                (is_some (animepahe (jar w))) (is_some (paheWin (jar w)))
                (is_some (kiwik (jar w)))).
Proof.
  intros Hr.
  pose proof (StoreFacts.whole_cycles_no_empty _
                (CycleFacts.reachable_whole_cycles _ _ w Hr)) as Hne.
  split; [exact Hne |]. unfold get_status.
  change (deref w (getCookies w)) with (jar w).
  pose proof (StoreFacts.has_value_is_some _ (Hne Animepahe)) as H1.
  pose proof (StoreFacts.has_value_is_some _ (Hne PaheWin)) as H2.
  pose proof (StoreFacts.has_value_is_some _ (Hne Kiwik)) as H3.
  simpl record_of in H1, H2, H3. rewrite H1, H2, H3. reflexivity.
Qed.

Lemma store_holds_no_empty_string_witness :
  no_empty_record (jar started_world) /\
  get_status started_world
  = json 200 (StatusBody (isCollecting (service started_world))
                (lastUpdated (jar started_world))
                (is_some (animepahe (jar started_world)))
                (is_some (paheWin (jar started_world)))
                (is_some (kiwik (jar started_world)))).
Proof.
  exact (store_holds_no_empty_string scheme_parseURL quiet_closeBrowser started_world
           (ServiceFacts.reachable_run _ _ _ _ (reachable_new _ _))).
Defined.

(** X13. As long as [lastUpdated] is unset the store holds no record at
    all: the 503 answer of [GET /] never withholds collected cookies. *)
Theorem unstamped_store_is_empty (parseURL : JsVal -> option URL)
  (closeBrowser : Browser -> Browser * Completion unit) (w : World) :
  reachable parseURL closeBrowser w ->
  lastUpdated (jar w) = None ->
  jar w = empty_jar.
Proof.
  intros Hr Hn.
  exact (StoreFacts.whole_cycles_unstamped _
           (CycleFacts.reachable_whole_cycles _ _ w Hr) Hn).
Qed.

Lemma unstamped_store_is_empty_witness :
  jar (fst (step scheme_parseURL quiet_closeBrowser new_world
              (Triggered (Manual 1%Z) first_answers))) = empty_jar.
Proof.
  exact (unstamped_store_is_empty scheme_parseURL quiet_closeBrowser
           (fst (step scheme_parseURL quiet_closeBrowser new_world
                   (Triggered (Manual 1%Z) first_answers)))
           (reachable_step _ _ _ _ (reachable_new _ _)) eq_refl).
Defined.

(** X14. The store never clears itself: a site that has a record keeps
    having one, whatever the event loop runs afterwards (failed cycles,
    shutdown, requests). *)
Theorem records_are_never_cleared (parseURL : JsVal -> option URL)
  (closeBrowser : Browser -> Browser * Completion unit)
  (w : World) (es : list Event) (site : Site) :
  is_some (record_of site (jar w)) = true ->
  is_some (record_of site (jar (fst (run parseURL closeBrowser w es)))) = true.
Proof. apply StoreFacts.record_kept_by_run. Qed.

Lemma records_are_never_cleared_witness :
  is_some (record_of Kiwik
             (jar (fst (run scheme_parseURL quiet_closeBrowser started_world
                          [Triggered (Manual 20%Z) second_answers; Shutdown;
                           AllSettled 30%Z])))) = true.
Proof.
  exact (records_are_never_cleared scheme_parseURL quiet_closeBrowser started_world
           [Triggered (Manual 20%Z) second_answers; Shutdown; AllSettled 30%Z]
           Kiwik eq_refl).
Defined.

(** X15. After any trace, [lastUpdated] is the instant at which the most
    recent collection cycle ran to its end (or its earlier value when none
    did), and the instants recorded are as many as the cycles completed. *)
Theorem lastUpdated_is_latest_completion (parseURL : JsVal -> option URL)
  (closeBrowser : Browser -> Browser * Completion unit)
  (w : World) (es : list Event) :
  lastUpdated (jar (fst (run parseURL closeBrowser w es)))
  = List.last (map Some (stamps parseURL closeBrowser w es)) (lastUpdated (jar w)) /\
  length (stamps parseURL closeBrowser w es)
  = completions parseURL closeBrowser w es.
Proof. apply StoreFacts.stamp_of_run. Qed.

(** X16. [destroy] and the startup cycle.  When [destroy] runs after the
    startup cycle has finished, the interval that [init] installed is no
    longer active.  When it runs while the startup cycle is still in flight,
    [init] installs the interval afterwards all the same, and that interval
    stays active although the service was shut down. *)
Theorem destroy_and_startup_order (parseURL : JsVal -> option URL)
  (closeBrowser : Browser -> Browser * Completion unit)
  (w : World) (b : Browser) (a : Answers) (now : Timestamp) :
  isCollecting (service w) = false ->
  suspended w = [] ->
  let after := fst (run parseURL closeBrowser w
                      [Triggered (Startup b) a; AllSettled now; Shutdown]) in
  let during := fst (run parseURL closeBrowser w
                       [Triggered (Startup b) a; Shutdown; AllSettled now]) in
  collectionInterval (service after) = Some (next_timer w) /\
  (next_timer w ∉ timers after) /\
  collectionInterval (service during) = Some (next_timer w) /\
  (next_timer w ∈ timers during).
Proof.
  intros Hb Hs.
  destruct w as [h [br c f ci] tm nt sp]. simpl in Hb, Hs. subst f sp.
  unfold run, step, trigger, init_launched, collectAllCookies_begin.
  cbn -[collectAllCookies_resume]. unfold all_settled, destroy.
  destruct (closeBrowser b) as [b' r] eqn:Hclose.
  destruct ci as [id |];
    repeat (progress (cbn -[collectAllCookies_resume];
                      rewrite ?ServiceFacts.resume_service,
                        ?StoreFacts.timers_resume, ?StoreFacts.next_timer_resume,
                        ?Hclose));
    (split; [reflexivity |]); (split; [set_solver |]);
    (split; [reflexivity | set_solver]).
Qed.

Lemma destroy_and_startup_order_witness :
  let after := fst (run scheme_parseURL quiet_closeBrowser new_world
                      [Triggered (Startup {| connected := true |}) first_answers;
                       AllSettled 10%Z; Shutdown]) in
  let during := fst (run scheme_parseURL quiet_closeBrowser new_world
                       [Triggered (Startup {| connected := true |}) first_answers;
                        Shutdown; AllSettled 10%Z]) in
  collectionInterval (service after) = Some (next_timer new_world) /\
  (next_timer new_world ∉ timers after) /\
  collectionInterval (service during) = Some (next_timer new_world) /\
  (next_timer new_world ∈ timers during).
Proof.
  exact (destroy_and_startup_order scheme_parseURL quiet_closeBrowser new_world
           {| connected := true |} first_answers 10%Z eq_refl eq_refl).
Defined.

(** X17. A cycle started by the timer or by [/refresh] while [this.browser]
    is still [null] cannot open any page: whatever the three sites would
    have answered, every record is left as it was and only [lastUpdated] is
    set. *)
Theorem cycle_without_browser_only_stamps (parseURL : JsVal -> option URL)
  (closeBrowser : Browser -> Browser * Completion unit)
  (w : World) (manual : option Timestamp) (a : Answers) (now : Timestamp) :
  browser (service w) = None ->
  isCollecting (service w) = false ->
  suspended w = [] ->
  jar (fst (run parseURL closeBrowser w
              [Triggered (match manual with Some t => Manual t | None => Periodic end) a;
               AllSettled now]))
  = set_lastUpdated now (jar w).
Proof.
  intros Hbr Hb Hs.
  destruct w as [h [br c f ci] tm nt sp]. simpl in Hbr, Hb, Hs. subst br f sp.
  destruct manual as [t |];
    unfold run, step, trigger, post_refresh, collectAllCookies_begin, all_settled;
    cbn -[collectAllCookies_resume];
    rewrite ServiceFacts.jar_resume; reflexivity.
Qed.

Lemma cycle_without_browser_only_stamps_witness :
  jar (fst (run scheme_parseURL quiet_closeBrowser new_world
              [Triggered (Manual 1%Z) first_answers; AllSettled 2%Z]))
  = set_lastUpdated 2%Z (jar new_world).
Proof.
  exact (cycle_without_browser_only_stamps scheme_parseURL quiet_closeBrowser
           new_world (Some 1%Z) first_answers 2%Z eq_refl eq_refl eq_refl).
Defined.

(** X18. A refresh that races the browser launch costs the startup
    collection.  If [/refresh] starts a cycle before the browser is there
    and [init] gets its browser while that cycle is running, [init]'s own
    collection returns at once and the interval is installed immediately;
    when the running cycle ends, the store has its stamp but no new record,
    and nothing is left to collect until the first timer tick. *)
Theorem refresh_racing_launch_skips_startup (parseURL : JsVal -> option URL)
  (closeBrowser : Browser -> Browser * Completion unit)
  (w : World) (t : Timestamp) (a1 a2 : Answers) (b : Browser) (now : Timestamp) :
  browser (service w) = None ->
  isCollecting (service w) = false ->
  suspended w = [] ->
  let result := run parseURL closeBrowser w
                  [Triggered (Manual t) a1; Triggered (Startup b) a2; AllSettled now] in
  nth_error (snd result) 1 = Some (OutTrigger Skipped) /\
  jar (fst result) = set_lastUpdated now (jar w) /\
  browser (service (fst result)) = Some b /\
  collectionInterval (service (fst result)) = Some (next_timer w) /\
  (next_timer w ∈ timers (fst result)) /\
  isCollecting (service (fst result)) = false /\
  suspended (fst result) = [].
Proof.
  intros Hbr Hb Hs.
  destruct w as [h [br c f ci] tm nt sp]. simpl in Hbr, Hb, Hs. subst br f sp.
  unfold run, step, trigger, post_refresh, init_launched, collectAllCookies_begin,
    all_settled.
  cbn -[collectAllCookies_resume].
  rewrite ServiceFacts.jar_resume, ServiceFacts.resume_service,
    StoreFacts.timers_resume, ServiceFacts.resume_suspended.
  cbn -[collectAllCookies_resume].
  repeat split; try reflexivity. set_solver.
Qed.

Lemma refresh_racing_launch_skips_startup_witness :
  let result := run scheme_parseURL quiet_closeBrowser new_world
                  [Triggered (Manual 1%Z) first_answers;
                   Triggered (Startup {| connected := true |}) second_answers;
                   AllSettled 2%Z] in
  nth_error (snd result) 1 = Some (OutTrigger Skipped) /\
  jar (fst result) = set_lastUpdated 2%Z (jar new_world) /\
  browser (service (fst result)) = Some {| connected := true |} /\
  collectionInterval (service (fst result)) = Some (next_timer new_world) /\
  (next_timer new_world ∈ timers (fst result)) /\
  isCollecting (service (fst result)) = false /\
  suspended (fst result) = [].
Proof.
  exact (refresh_racing_launch_skips_startup scheme_parseURL quiet_closeBrowser
           new_world 1%Z first_answers second_answers {| connected := true |} 2%Z
           eq_refl eq_refl eq_refl).
Defined.

(** X19. Validating twice changes nothing: every property that survives
    validation passes the same tests again, so the validated object is a
    fixed point of validation. *)
Theorem validateOptions_idempotent (raw : JsVal) :
  validateOptions (validateOptions raw) = validateOptions raw.
Proof.
  destruct (ValidatorFacts.opt_validateOptions raw)
    as (H1 & H2 & H3 & H4 & H5 & H6 & H7).
  cbv beta in H1, H2, H3, H4, H5, H6, H7.
  unfold validateOptions at 1 3.
  repeat (apply CreateFacts.copy_if_ext; [| | try reflexivity]);
    try (intros Hc;
         first [rewrite H1 | rewrite H2 | rewrite H3 | rewrite H4 | rewrite H5
               | rewrite H6 | rewrite H7];
         rewrite Hc; reflexivity);
    first [rewrite H1 | rewrite H2 | rewrite H3 | rewrite H4 | rewrite H5
          | rewrite H6 | rewrite H7];
    match goal with
    | |- _ = ?c => destruct c eqn:E; cbv iota; [exact E | reflexivity]
    end.
Qed.

(** X21. The three ways a [/create] request fails on its URL, in the order
    the route checks them and before it looks at the busy flag: a missing or
    empty URL is answered 400 "URL is required", one that does not parse 400
    "Invalid URL format", one that parses with another protocol 400 "Only
    HTTPS URLs are allowed"; no page is opened in any of them. *)
Theorem create_url_errors (parseURL : JsVal -> option URL)
  (now : Timestamp) (answer : Completion Page) (reqBody url : JsVal) (w : World) :
  get reqBody "url" = Normal url ->
  truthy url && absolute_https parseURL url = false ->
  post_create parseURL now answer reqBody w
  = ([], json 400
           (ErrorBody
              (if truthy url then
                 match parseURL url with
                 | None => "Invalid URL format"
                 | Some _ => "Only HTTPS URLs are allowed"
                 end
               else "URL is required"))).
Proof.
  intros Hurl Hbad. unfold absolute_https in Hbad.
  unfold post_create, isValidUrl. rewrite Hurl.
  assert (exists given, get reqBody "options" = Normal given) as [given ->]
    by (destruct reqBody; try discriminate; eexists; reflexivity).
  destruct (truthy url); simpl in *; [| reflexivity].
  destruct (parseURL url) as [parsedUrl |]; simpl; [| reflexivity].
  rewrite Hbad. reflexivity.
Qed.

Lemma create_url_errors_witness :
  post_create scheme_parseURL 50%Z (Normal (good_page "Example Domain" []))
    (JObj [("options", JObj [])])
    (fst (step scheme_parseURL quiet_closeBrowser started_world
            (Triggered Periodic second_answers)))
  = ([], json 400 (ErrorBody "URL is required")).
Proof.
  exact (create_url_errors scheme_parseURL 50%Z
           (Normal (good_page "Example Domain" [])) (JObj [("options", JObj [])])
           JUndefined
           (fst (step scheme_parseURL quiet_closeBrowser started_world
                   (Triggered Periodic second_answers)))
           eq_refl eq_refl).
Defined.
